(** * Grimoire: the entity store and the navigation state of the library app

    A shallow embedding of the data layer of the single-page application
    (the [DataProvider] component, the [BookList] filter and the [App]
    component with [navigate] and [renderView]), and the properties of the
    store operations, of the load effect and of view routing.

    Records are JavaScript objects: finite maps from property names to
    values.  Collections are JavaScript arrays: lists, in insertion order.
    React state is threaded explicitly: an operation of the provider is a
    function from the store before the call to the store after it.  Every
    consumer reads a collection through [Array.isArray(x) ? x : []]; the
    properties are stated on the collections read this way, [safeBooks] and
    [safeCharacters]. *)

From Stdlib Require Import ZArith.
From stdpp Require Import base decidable option strings list gmap.

Local Open Scope string_scope.
Local Open Scope Z_scope.
Local Open Scope list_scope.

(** ** JavaScript values *)

Module JS.

(** The values a record field holds.  Numbers are the integers: the only
    numbers the program makes are [Date.now()] readings, and it does no
    arithmetic on them. *)
Inductive value : Type :=
| VUndefined
| VNull
| VBool (b : bool)
| VNum (n : Z)
| VStr (s : string).

#[global] Instance value_eq_dec : EqDecision value.
Proof. solve_decision. Defined.

(** An object literal: its own properties.  A property that is not there
    reads as [undefined]. *)
Abbreviation object := (gmap string value).

Definition get (o : object) (k : string) : value :=
  default VUndefined (o !! k).

(** [a === b] and [a !== b].  On these values strict equality is equality
    of the values. *)
Definition strict_eq (a b : value) : bool := bool_decide (a = b).
Definition strict_ne (a b : value) : bool := negb (strict_eq a b).

(** The condition of [if (v)], [v ? _ : _] and [v && _]. *)
Definition truthy (v : value) : bool :=
  match v with
  | VUndefined | VNull => false
  | VBool b => b
  | VNum n => negb (n =? 0)
  | VStr s => negb (String.eqb s "")
  end.

(** A parameter with a default, [(x = d) => ...]: the default is taken
    when the argument is missing or [undefined], and only then. *)
Definition default_param (arg d : value) : value :=
  match arg with
  | VUndefined => d
  | _ => arg
  end.

(** [l.find(p)]: the first element that satisfies [p], if any. *)
Definition find (p : object → bool) (l : list object) : option object :=
  snd <$> list_find (λ x, p x) l.

(** What a state variable of the provider holds and what [JSON.parse]
    hands back: an array of records, or something that is not an array. *)
Inductive json : Type :=
| JArray (items : list object)
| JObject (o : object)
| JPrim (v : value).

Definition Array_isArray (j : json) : bool :=
  match j with
  | JArray _ => true
  | _ => false
  end.

(** [Array.isArray(x) ? x : []], as a list. *)
Definition safe (x : json) : list object :=
  match x with
  | JArray items => items
  | _ => []
  end.

End JS.

Import JS.

(** ** The store: [DataProvider] *)

Record Store : Type := mkStore {
  books : json;
  characters : json
}.

(** [useState([])], twice. *)
Definition initialStore : Store := mkStore (JArray []) (JArray []).

(** [setBooks(f)] and [setCharacters(f)] with an updater function [f];
    [setBooks(x)] with a value is [setBooks (λ _, x)]. *)
Definition setBooks (f : json → json) (s : Store) : Store :=
  mkStore (f (books s)) (characters s).

Definition setCharacters (f : json → json) (s : Store) : Store :=
  mkStore (books s) (f (characters s)).

(** *** Book functions

    [Date.now()] is the argument [now]: the clock reading at the time the
    updater runs.  [Array.isArray(prev) ? a : b] is the [match] on [prev]. *)

Definition addBook (now : Z) (book : object) : Store → Store :=
  setBooks (λ prevBooks,
    match prevBooks with
    | JArray prevBooks => JArray (prevBooks ++ [ <["id" := VNum now]> book ])
    | _ => JArray [ <["id" := VNum now]> book ]
    end).

Definition updateBook (updatedBook : object) : Store → Store :=
  setBooks (λ prevBooks,
    match prevBooks with
    | JArray prevBooks =>
        JArray ((λ book, if strict_eq (get book "id") (get updatedBook "id")
                         then updatedBook else book) <$> prevBooks)
    | _ => JArray []
    end).

Definition deleteBook (id : value) (s : Store) : Store :=
  let s := setBooks (λ prevBooks,
             match prevBooks with
             | JArray prevBooks =>
                 JArray (filter (λ book, strict_ne (get book "id") id) prevBooks)
             | _ => JArray []
             end) s in
  (* Also delete associated characters *)
  setCharacters (λ prevChars,
    match prevChars with
    | JArray prevChars =>
        JArray (filter (λ char, strict_ne (get char "bookId") id) prevChars)
    | _ => JArray []
    end) s.

(** *** Character functions *)

Definition addCharacter (now : Z) (character : object) : Store → Store :=
  setCharacters (λ prevChars,
    match prevChars with
    | JArray prevChars =>
        JArray (prevChars ++ [ <["id" := VNum now]> character ])
    | _ => JArray [ <["id" := VNum now]> character ]
    end).

Definition updateCharacter (updatedCharacter : object) : Store → Store :=
  setCharacters (λ prevChars,
    match prevChars with
    | JArray prevChars =>
        JArray ((λ char,
                   if strict_eq (get char "id") (get updatedCharacter "id")
                   then updatedCharacter else char) <$> prevChars)
    | _ => JArray []
    end).

Definition deleteCharacter (id : value) : Store → Store :=
  setCharacters (λ prevChars,
    match prevChars with
    | JArray prevChars =>
        JArray (filter (λ char, strict_ne (get char "id") id) prevChars)
    | _ => JArray []
    end).

(** *** The load effect

    [localStorage.getItem] gives [null] (here [None]) or the stored text.
    [JSON.parse] belongs to the runtime: it is a parameter, [None] where it
    throws a [SyntaxError].  A completion records whether a statement list
    ran to its end or threw; the state updates made before a throw stay
    made, which is what the [catch] handler then overwrites. *)

Inductive completion : Type :=
| Normal
| Throw.

Section Load.

Variable JSON_parse : string → option json.

(** One [if (stored) { ... } else { ... }] statement of the [try] block,
    for the collection that [set] stores. *)
Definition load_collection (stored : option string)
    (set : (json → json) → Store → Store) (s : Store) : Store * completion :=
  match stored with
  | Some text =>
      if truthy (VStr text) then
        match JSON_parse text with
        | Some parsed =>
            (set (λ _, if Array_isArray parsed then parsed else JArray []) s,
             Normal)
        | None => (s, Throw)
        end
      else (set (λ _, JArray []) s, Normal)
  | None => (set (λ _, JArray []) s, Normal)
  end.

(** The body of the [try]. *)
Definition load_try (storedBooks storedCharacters : option string)
    (s : Store) : Store * completion :=
  match load_collection storedBooks setBooks s with
  | (s, Normal) => load_collection storedCharacters setCharacters s
  | (s, Throw) => (s, Throw)
  end.

(** The effect: [try { ... } catch (error) { ... }]. *)
Definition load (storedBooks storedCharacters : option string)
    (s : Store) : Store * completion :=
  match load_try storedBooks storedCharacters s with
  | (s, Normal) => (s, Normal)
  | (s, Throw) =>
      (* Reset to empty array on error *)
      let s := setBooks (λ _, JArray []) s in
      let s := setCharacters (λ _, JArray []) s in
      (s, Normal)
  end.

End Load.

(** ** [BookList] *)

(** The books the list shows, [filteredBooks], for the [books] of the
    context and the [filterStatus] prop; [filterStatus = null] is the
    default of the prop. *)
Definition filteredBooks (books : json) (filterStatus : value) : list object :=
  let filterStatus := default_param filterStatus VNull in
  let safeBooks := safe books in
  if truthy filterStatus
  then filter (λ book, strict_eq (get book "readStatus") filterStatus) safeBooks
  else safeBooks.

(** ** [App]: navigation state and view routing *)

Record Nav : Type := mkNav {
  view : string;
  selectedBookId : value;
  selectedCharacterId : value
}.

(** [useState('books')], [useState(null)], [useState(null)]. *)
Definition initialNav : Nav := mkNav "books" VNull VNull.

Definition setView (v : string) (n : Nav) : Nav :=
  mkNav v (selectedBookId n) (selectedCharacterId n).
Definition setSelectedBookId (id : value) (n : Nav) : Nav :=
  mkNav (view n) id (selectedCharacterId n).
Definition setSelectedCharacterId (id : value) (n : Nav) : Nav :=
  mkNav (view n) (selectedBookId n) id.

(** [navigate(newView, bookId = null, charId = null)].  An argument that is
    left out is [VUndefined]. *)
Definition navigate (newView : string) (bookId charId : value) (n : Nav)
    : Nav :=
  let bookId := default_param bookId VNull in
  let charId := default_param charId VNull in
  let n := setView newView n in
  let n := setSelectedBookId bookId n in
  setSelectedCharacterId charId n.

Definition safeBooks (s : Store) : list object := safe (books s).
Definition safeCharacters (s : Store) : list object := safe (characters s).

Definition selectedBook (s : Store) (n : Nav) : option object :=
  find (λ b, strict_eq (get b "id") (selectedBookId n)) (safeBooks s).

Definition selectedCharacter (s : Store) (n : Nav) : option object :=
  find (λ c, strict_eq (get c "id") (selectedCharacterId n)) (safeCharacters s).

Definition charactersForSelectedBook (s : Store) (n : Nav) : list object :=
  filter (λ c, strict_eq (get c "bookId") (selectedBookId n)) (safeCharacters s).

(** What [renderView] returns: a component with its props ([navigate] is
    passed to every one and is left out).  A prop that is not passed is
    [VUndefined], or [None] for a record. *)
Inductive element : Type :=
| BookList (filterStatus : value) (listTitle : string)
| BookForm (existingBook : option object)
| BookDetail (book : object) (characters : list object)
| CharacterForm (bookId : value) (existingCharacter : option object)
| CharacterDetail (character : object).

(** [renderView]: the [switch] on the view name.  [selectedBook ? a : b]
    tests a record or [undefined]; a record is truthy. *)
Definition renderView (s : Store) (n : Nav) : element :=
  if String.eqb (view n) "wishlist" then BookList (VStr "To Read") "My Wishlist"
  else if String.eqb (view n) "readBooks" then BookList (VStr "Read") "Books Read"
  else if String.eqb (view n) "addBook" then BookForm None
  else if String.eqb (view n) "editBook" then
    match selectedBook s n with
    | Some book => BookForm (Some book)
    | None => BookList VUndefined "My Books"
    end
  else if String.eqb (view n) "viewBook" then
    match selectedBook s n with
    | Some book => BookDetail book (charactersForSelectedBook s n)
    | None => BookList VUndefined "My Books"
    end
  else if String.eqb (view n) "addCharacter" then
    CharacterForm (selectedBookId n) None
  else if String.eqb (view n) "editCharacter" then
    match selectedCharacter s n with
    | Some char => CharacterForm (selectedBookId n) (Some char)
    | None => BookList VUndefined "My Books"
    end
  else if String.eqb (view n) "viewCharacter" then
    match selectedCharacter s n with
    | Some char => CharacterDetail char
    | None => BookList VUndefined "My Books"
    end
  else BookList VUndefined "My Books".

(** ** Definitions for the statements *)

(** The callback of [map] in [updateBook] and [updateCharacter], under a
    name. *)
Definition swap (updated x : object) : object :=
  if strict_eq (get x "id") (get updated "id") then updated else x.

(** A collection after an update, [l'], is the one before, [l], with the
    records of the payload's id replaced where they stand. *)
Definition replaced_in_place (payload : object) (l l' : list object) : Prop :=
  length l' = length l ∧
  ∀ i x, l !! i = Some x →
    l' !! i = Some (if decide (get x "id" = get payload "id")
                    then payload else x).

(** Both state variables hold arrays. *)
Definition well_formed (s : Store) : bool :=
  Array_isArray (books s) && Array_isArray (characters s).

(** The stores the provider can be in: the initial one, and the ones the
    load effect and the six operations lead to. *)
Inductive reachable : Store → Prop :=
| reach_initial : reachable initialStore
| reach_load JSON_parse storedBooks storedCharacters s :
    reachable s →
    reachable (load JSON_parse storedBooks storedCharacters s).1
| reach_addBook now book s : reachable s → reachable (addBook now book s)
| reach_updateBook book s : reachable s → reachable (updateBook book s)
| reach_deleteBook id s : reachable s → reachable (deleteBook id s)
| reach_addCharacter now char s :
    reachable s → reachable (addCharacter now char s)
| reach_updateCharacter char s :
    reachable s → reachable (updateCharacter char s)
| reach_deleteCharacter id s :
    reachable s → reachable (deleteCharacter id s).

(** Looking a book up by its id, as [App] does for the selected book. *)
Definition lookupBook (id : value) (s : Store) : option object :=
  selectedBook s (mkNav "viewBook" id VNull).

(** [id ?? null] *)
Definition or_null (id : value) : value :=
  match id with
  | VUndefined | VNull => VNull
  | _ => id
  end.

(** A payload on which the loader's [JSON.parse] call throws: a text, not
    the empty one, that does not parse. *)
Definition unparseable (JSON_parse : string → option json)
    (stored : option string) : bool :=
  match stored with
  | Some text =>
      negb (String.eqb text "") && bool_decide (JSON_parse text = None)
  | None => false
  end.

(** The records a payload holds: the items of the array it parses to, and
    none when the payload is absent, empty, or not an array. *)
Definition persisted (JSON_parse : string → option json)
    (stored : option string) : list object :=
  match stored with
  | Some text =>
      if String.eqb text "" then []
      else match JSON_parse text with
           | Some (JArray items) => items
           | _ => []
           end
  | None => []
  end.

(** The double quote, and the text [[{"id":1,"title":"Dune"}]]. *)
Definition dq : string := String (Ascii.ascii_of_nat 34) "".
Definition dune_text : string :=
  String.concat dq ["[{"; "id"; ":1,"; "title"; ":"; "Dune"; "}]"].

(** [JSON.parse] on the texts of the examples: the Dune payload, [[]],
    [{}] and [null] parse; [{], an object cut short, does not.  The examples
    use no other text. *)
Definition sample_parse (text : string) : option json :=
  if String.eqb text dune_text then
    Some (JArray [ {[ "id" := VNum 1; "title" := VStr "Dune" ]} ])
  else if String.eqb text "[]" then Some (JArray [])
  else if String.eqb text "{}" then Some (JObject ∅)
  else if String.eqb text "null" then Some (JPrim VNull)
  else None.

(** The scenario of the catalogue: one book, Dune, with id 1, and one
    character of it, Paul, with id 2. *)
Definition dune_store : Store :=
  addCharacter 2 {[ "name" := VStr "Paul"; "bookId" := VNum 1 ]}
    (addBook 1 {[ "title" := VStr "Dune"; "author" := VStr "Herrick" ]}
       initialStore).

(** A store with one book, added at the clock reading 1000. *)
Definition tick_store : Store :=
  addBook 1000 {[ "title" := VStr "A"; "author" := VStr "B" ]} initialStore.

(** ** Persistence: [localStorage] and the save effects *)

(** [localStorage]: texts under keys.  [getItem(k)] is the lookup, [null]
    (here [None]) for a key that is not there; [setItem(k, v)] is the
    insertion. *)
Abbreviation storage := (gmap string string).

Section Save.

(** [JSON.stringify] belongs to the runtime, like [JSON.parse]. *)
Variable JSON_stringify : json → string.

(** The effect on [books]: *)
Definition saveBooksEffect (s : Store) (ls : storage) : storage :=
  if Array_isArray (books s)
  then <["books" := JSON_stringify (books s)]> ls
  else ls.

(** and the effect on [characters]. *)
Definition saveCharactersEffect (s : Store) (ls : storage) : storage :=
  if Array_isArray (characters s)
  then <["characters" := JSON_stringify (characters s)]> ls
  else ls.

End Save.

(** The load effect, with its two [getItem] calls. *)
Definition loadEffect (JSON_parse : string → option json) (ls : storage)
    (s : Store) : Store * completion :=
  let storedBooks := ls !! "books" in
  let storedCharacters := ls !! "characters" in
  load JSON_parse storedBooks storedCharacters s.

(** ** The components' event handlers

    A handler runs on the state of the provider and of [App] together, and
    may raise an alert; [window.confirm] is the argument [confirmed], the
    answer of the user. *)

Record UI : Type := mkUI {
  store : Store;
  nav : Nav;
  alerts : list string
}.

Definition on_store (f : Store → Store) (u : UI) : UI :=
  mkUI (f (store u)) (nav u) (alerts u).
Definition on_nav (f : Nav → Nav) (u : UI) : UI :=
  mkUI (store u) (f (nav u)) (alerts u).
Definition alert (message : string) (u : UI) : UI :=
  mkUI (store u) (nav u) (alerts u ++ [message]).

(** [a || b] *)
Definition or_else (a b : value) : value := if truthy a then a else b.

(** [o?.k], for [o] a record, or [null] or [undefined] (here [None]). *)
Definition opt_get (o : option object) (k : string) : value :=
  match o with
  | Some o => get o k
  | None => VUndefined
  end.

(** *** [BookList] and [BookDetail] *)

(** The Delete button of a card of [BookList]. *)
Definition BookList_onDelete (confirmed : bool) (book : object) (u : UI) : UI :=
  if confirmed then on_store (deleteBook (get book "id")) u else u.

Definition handleDeleteBook (confirmed : bool) (book : object) (u : UI) : UI :=
  if confirmed then
    let u := on_store (deleteBook (get book "id")) u in
    on_nav (navigate "books" VUndefined VUndefined) u
  else u.

(** *** [BookForm] *)

Module Book.
Record form : Type := mkForm {
  title : value;
  author : value;
  coverImage : value;
  readStatus : value;
  notes : value
}.
End Book.

(** The five [useState(existingBook?.field || '')]. *)
Definition BookForm_init (existingBook : option object) : Book.form :=
  Book.mkForm (or_else (opt_get existingBook "title") (VStr ""))
              (or_else (opt_get existingBook "author") (VStr ""))
              (or_else (opt_get existingBook "coverImage") (VStr ""))
              (or_else (opt_get existingBook "readStatus") (VStr ""))
              (or_else (opt_get existingBook "notes") (VStr "")).

(** [handleSubmit] of [BookForm]. *)
Definition BookForm_handleSubmit (now : Z) (existingBook : option object)
    (f : Book.form) (u : UI) : UI :=
  if negb (truthy (Book.title f)) || negb (truthy (Book.author f)) then
    alert "A book requires at least a Title and Author." u
  else
    let bookData : object :=
      {[ "id" := opt_get existingBook "id";
         "title" := Book.title f;
         "author" := Book.author f;
         "coverImage" := Book.coverImage f;
         "readStatus" := Book.readStatus f;
         "notes" := Book.notes f ]} in
    match existingBook with
    | Some existingBook =>
        let u := on_store (updateBook bookData) u in
        on_nav (navigate "viewBook" (get existingBook "id") VUndefined) u
    | None =>
        let u := on_store (addBook now bookData) u in
        on_nav (navigate "books" VUndefined VUndefined) u
    end.

(** *** [CharacterCard], [CharacterDetail] and [CharacterForm] *)

Definition CharacterCard_handleDelete (confirmed : bool) (character : object)
    (u : UI) : UI :=
  if confirmed then on_store (deleteCharacter (get character "id")) u else u.

(** [parentBook] of [CharacterDetail] and, with the [bookId] prop, of
    [CharacterForm]: [books.find(b => b.id === bookId)]. *)
Definition parentBook (s : Store) (bookId : value) : option object :=
  match books s with
  | JArray books => find (λ b, strict_eq (get b "id") bookId) books
  | _ => None
  end.

Definition handleDeleteCharacter (confirmed : bool) (character : object)
    (u : UI) : UI :=
  if confirmed then
    let u := on_store (deleteCharacter (get character "id")) u in
    (* Navigate back to the parent book after deleting a character *)
    if truthy (get character "bookId")
    then on_nav (navigate "viewBook" (get character "bookId") VUndefined) u
    else on_nav (navigate "books" VUndefined VUndefined) u
  else u.

Module Character.
Record form : Type := mkForm {
  name : value;
  image : value;
  origin : value;
  family : value;
  summary : value;
  backstory : value
}.
End Character.

Definition CharacterForm_init (existingCharacter : option object)
    : Character.form :=
  Character.mkForm (or_else (opt_get existingCharacter "name") (VStr ""))
                   (or_else (opt_get existingCharacter "image") (VStr ""))
                   (or_else (opt_get existingCharacter "origin") (VStr ""))
                   (or_else (opt_get existingCharacter "family") (VStr ""))
                   (or_else (opt_get existingCharacter "summary") (VStr ""))
                   (or_else (opt_get existingCharacter "backstory") (VStr "")).

(** [handleSubmit] of [CharacterForm], for the props [bookId] and
    [existingCharacter]. *)
Definition CharacterForm_handleSubmit (now : Z) (bookId : value)
    (existingCharacter : option object) (f : Character.form) (u : UI) : UI :=
  if negb (truthy (Character.name f)) then
    alert "The character needs a name." u
  else if negb (truthy bookId) then
    alert "Cannot add character without a parent book reference." u
  else
    let characterData : object :=
      {[ "id" := opt_get existingCharacter "id";
         "name" := Character.name f;
         "image" := Character.image f;
         "origin" := Character.origin f;
         "family" := Character.family f;
         "summary" := Character.summary f;
         "backstory" := Character.backstory f;
         "bookId" := bookId ]} in
    match existingCharacter with
    | Some existingCharacter =>
        let u := on_store (updateCharacter characterData) u in
        on_nav (navigate "viewCharacter" bookId
                  (get existingCharacter "id")) u
    | None =>
        let u := on_store (addCharacter now characterData) u in
        on_nav (navigate "viewBook" bookId VUndefined) u
    end.

(** *** Buttons that navigate *)

(** Edit Book Info and + Add Character of [BookDetail], Edit Character of
    [CharacterDetail]. *)
Definition BookDetail_onEdit (book : object) : UI → UI :=
  on_nav (navigate "editBook" (get book "id") VUndefined).

Definition BookDetail_onAddCharacter (book : object) : UI → UI :=
  on_nav (navigate "addCharacter" (get book "id") VUndefined).

Definition CharacterDetail_onEdit (character : object) : UI → UI :=
  on_nav (navigate "editCharacter" (get character "bookId")
            (get character "id")).

(** ** More definitions for the statements *)

(** Every character names a book of the store. *)
Definition integrity (s : Store) : Prop :=
  ∀ c, c ∈ safeCharacters s →
       ∃ b, b ∈ safeBooks s ∧ get b "id" = get c "bookId".

(** The ids of a collection, in its order. *)
Definition ids (l : list object) : list value := (λ r, get r "id") <$> l.

(** [JSON.stringify] on the values of the examples: the array with the
    Dune record of [dune_text] and the empty array.  The examples use no
    other value. *)
Definition sample_stringify (j : json) : string :=
  match j with
  | JArray [] => "[]"
  | JArray [r] =>
      if decide (r = {[ "id" := VNum 1; "title" := VStr "Dune" ]})
      then dune_text else "null"
  | _ => "null"
  end.

(** Closes [∀ x, x ∈ [r] → get x k ≠ v] for a given record [r], by
    evaluation. *)
Ltac single_record :=
  let x := fresh "x" in
  let Hx := fresh "Hx" in
  intros x Hx; apply list_elem_of_singleton in Hx; subst x;
  vm_compute; discriminate.

(** ** Reading the JavaScript operators *)

Section Operators.

Lemma strict_eq_spec (a b : value) : strict_eq a b ↔ a = b.
Proof. unfold strict_eq. apply bool_decide_spec. Qed.

Lemma strict_ne_spec (a b : value) : strict_ne a b ↔ a ≠ b.
Proof.
  unfold strict_ne. rewrite negb_True. by rewrite strict_eq_spec.
Qed.

Lemma strict_eq_refl (a : value) : strict_eq a a = true.
Proof. unfold strict_eq. by apply bool_decide_eq_true. Qed.

Lemma strict_eq_false (a b : value) : a ≠ b → strict_eq a b = false.
Proof. intros. unfold strict_eq. by apply bool_decide_eq_false. Qed.

Lemma get_insert_eq (o : object) (k : string) (v : value) :
  get (<[k := v]> o) k = v.
Proof. unfold get. by rewrite lookup_insert_eq. Qed.

Lemma get_insert_ne (o : object) (k k' : string) (v : value) :
  k ≠ k' → get (<[k := v]> o) k' = get o k'.
Proof. intros. unfold get. by rewrite lookup_insert_ne. Qed.

(** [find] gives nothing exactly when no element passes the test. *)
Lemma find_None (p : object → bool) (l : list object) :
  find p l = None ↔ ∀ x, x ∈ l → p x = false.
Proof.
  unfold find. rewrite fmap_None, list_find_None, Forall_forall.
  split; intros H x Hx; specialize (H x Hx).
  - by destruct (p x); [destruct H|].
  - rewrite H. by intros [].
Qed.

(** [find] gives the first element that passes the test. *)
Lemma find_Some (p : object → bool) (l : list object) (x : object) :
  find p l = Some x ↔
  ∃ l1 l2, l = l1 ++ x :: l2 ∧ p x = true ∧ ∀ y, y ∈ l1 → p y = false.
Proof.
  unfold find. split.
  - intros ([i y] & Hf & ->)%fmap_Some. simpl.
    apply list_find_Some in Hf as (Hi & Hp & Hbefore).
    apply list_elem_of_split_length in Hi as (l1 & l2 & -> & ->).
    exists l1, l2. split; [done|]. split; [by apply Is_true_true|].
    intros z (j & Hj)%list_elem_of_lookup.
    assert (j < length l1)%nat as Hlt by (by eapply lookup_lt_Some).
    specialize (Hbefore j z). rewrite lookup_app_l in Hbefore by done.
    specialize (Hbefore Hj Hlt). by destruct (p z); [destruct Hbefore|].
  - intros (l1 & l2 & -> & Hp & Hbefore).
    apply fmap_Some. exists (length l1, x). split; [|done].
    apply list_find_Some. split; [by apply list_lookup_middle|].
    split; [by apply Is_true_true|].
    intros j z Hj Hlt. rewrite lookup_app_l in Hj by done.
    apply list_elem_of_lookup_2 in Hj. rewrite (Hbefore z Hj). by intros [].
Qed.

Lemma find_app_fresh (p : object → bool) (l : list object) (x : object) :
  (∀ y, y ∈ l → p y = false) → p x = true → find p (l ++ [x]) = Some x.
Proof. intros Hl Hx. apply find_Some. by exists l, []. Qed.

Lemma filter_keeps_all {A} (P : A → Prop) `{!∀ x, Decision (P x)}
    (l : list A) :
  (∀ x, x ∈ l → P x) → filter P l = l.
Proof.
  induction l as [|x l IH]; intros Hall; [done|].
  rewrite filter_cons_True by (apply Hall; left).
  f_equal. apply IH. intros y Hy. apply Hall. by right.
Qed.

Lemma elem_of_filter_ne (field : string) (id : value) (l : list object)
    (x : object) :
  x ∈ filter (λ r, strict_ne (get r field) id) l ↔ x ∈ l ∧ get x field ≠ id.
Proof. rewrite list_elem_of_filter, strict_ne_spec. tauto. Qed.

End Operators.

(** ** The collections after each operation

    Read through [safe], every updater is the list operation of its first
    branch: a state that is not an array counts as the empty array. *)

Section Collections.

Variable s : Store.

Lemma safeBooks_addBook (now : Z) (book : object) :
  safeBooks (addBook now book s) = safeBooks s ++ [ <["id" := VNum now]> book ].
Proof. unfold safeBooks, addBook, setBooks; simpl. by destruct (books s). Qed.

Lemma safeCharacters_addCharacter (now : Z) (character : object) :
  safeCharacters (addCharacter now character s)
    = safeCharacters s ++ [ <["id" := VNum now]> character ].
Proof.
  unfold safeCharacters, addCharacter, setCharacters; simpl.
  by destruct (characters s).
Qed.

Lemma safeBooks_updateBook (updatedBook : object) :
  safeBooks (updateBook updatedBook s) = swap updatedBook <$> safeBooks s.
Proof. unfold safeBooks, updateBook, setBooks; simpl. by destruct (books s). Qed.

Lemma safeCharacters_updateCharacter (updatedCharacter : object) :
  safeCharacters (updateCharacter updatedCharacter s)
    = swap updatedCharacter <$> safeCharacters s.
Proof.
  unfold safeCharacters, updateCharacter, setCharacters; simpl.
  by destruct (characters s).
Qed.

Lemma safeBooks_deleteBook (id : value) :
  safeBooks (deleteBook id s)
    = filter (λ book, strict_ne (get book "id") id) (safeBooks s).
Proof. unfold safeBooks, deleteBook, setBooks; simpl. by destruct (books s). Qed.

Lemma safeCharacters_deleteBook (id : value) :
  safeCharacters (deleteBook id s)
    = filter (λ char, strict_ne (get char "bookId") id) (safeCharacters s).
Proof.
  unfold safeCharacters, deleteBook, setCharacters; simpl.
  by destruct (characters s).
Qed.

Lemma safeCharacters_deleteCharacter (id : value) :
  safeCharacters (deleteCharacter id s)
    = filter (λ char, strict_ne (get char "id") id) (safeCharacters s).
Proof.
  unfold safeCharacters, deleteCharacter, setCharacters; simpl.
  by destruct (characters s).
Qed.

(** An operation leaves arrays in the state variables when it finds
    arrays there. *)
Lemma operations_store_arrays (now : Z) (r : object) (id : value) :
  well_formed s = true →
  well_formed (addBook now r s) = true ∧
  well_formed (updateBook r s) = true ∧
  well_formed (deleteBook id s) = true ∧
  well_formed (addCharacter now r s) = true ∧
  well_formed (updateCharacter r s) = true ∧
  well_formed (deleteCharacter id s) = true.
Proof.
  unfold well_formed, addBook, updateBook, deleteBook, addCharacter,
    updateCharacter, deleteCharacter, setBooks, setCharacters; simpl.
  by destruct (books s), (characters s).
Qed.

End Collections.

(** ** Deleting a book *)

(** C1.  [deleteBook(B)] keeps exactly the books whose id is not [B] and
    exactly the characters whose [bookId] is not [B]: the book with id [B] is
    gone and no character of it remains.  When no book has id [B] the book
    collection is the one before the call. *)
Theorem deleteBook_cascade (B : value) (s : Store) :
  (∀ b, b ∈ safeBooks (deleteBook B s) ↔ b ∈ safeBooks s ∧ get b "id" ≠ B) ∧
  (∀ c, c ∈ safeCharacters (deleteBook B s) ↔
        c ∈ safeCharacters s ∧ get c "bookId" ≠ B) ∧
  ((∀ b, b ∈ safeBooks s → get b "id" ≠ B) →
     safeBooks (deleteBook B s) = safeBooks s ∧
     (Array_isArray (books s) = true → books (deleteBook B s) = books s)).
Proof.
  rewrite safeBooks_deleteBook, safeCharacters_deleteBook.
  split; [|split].
  - intros b. apply elem_of_filter_ne.
  - intros c. apply elem_of_filter_ne.
  - intros Hnone.
    assert (filter (λ book, strict_ne (get book "id") B) (safeBooks s)
            = safeBooks s) as Hsame.
    { apply filter_keeps_all. intros b Hb. apply strict_ne_spec.
      by apply Hnone. }
    split; [done|]. intros Harr. revert Hsame.
    unfold safeBooks, deleteBook, setBooks; simpl.
    destruct (books s); try done. simpl. by intros ->.
Qed.

Lemma deleteBook_cascade_witness :
  safeCharacters (deleteBook (VNum 1) dune_store) = [] ∧
  (∀ c, c ∈ safeCharacters (deleteBook (VNum 1) dune_store) →
        get c "bookId" ≠ VNum 1) ∧
  books (deleteBook (VNum 7) dune_store) = books dune_store.
Proof.
  split; [reflexivity|]. split.
  - intros c Hc.
    by apply (proj1 (proj2 (deleteBook_cascade (VNum 1) dune_store))) in Hc
      as [_ ?].
  - apply (proj2 (proj2 (deleteBook_cascade (VNum 7) dune_store)));
      [single_record|reflexivity].
Defined.

(** ** Adding a record *)

(** The id of an added book is the clock reading, so two books added at one
    reading share their id, and looking the id up gives the older one. *)
Lemma addBook_same_tick_collides :
  safeBooks tick_store
    = [ {[ "title" := VStr "A"; "author" := VStr "B"; "id" := VNum 1000 ]} ] ∧
  safeBooks
    (addBook 1000 {[ "title" := VStr "C"; "author" := VStr "D" ]} tick_store)
    = [ {[ "title" := VStr "A"; "author" := VStr "B"; "id" := VNum 1000 ]};
        {[ "title" := VStr "C"; "author" := VStr "D"; "id" := VNum 1000 ]} ] ∧
  lookupBook (VNum 1000)
    (addBook 1000 {[ "title" := VStr "C"; "author" := VStr "D" ]} tick_store)
    = Some {[ "title" := VStr "A"; "author" := VStr "B"; "id" := VNum 1000 ]} ∧
  lookupBook (VNum 1000)
    (addBook 1000 {[ "title" := VStr "C"; "author" := VStr "D" ]} tick_store)
    ≠ Some {[ "title" := VStr "C"; "author" := VStr "D"; "id" := VNum 1000 ]}.
Proof. by vm_compute. Qed.

(** C2, amended.  [addBook] at clock reading [now] appends one record to
    the book collection; the record carries the title, author, coverImage,
    readStatus and notes of the input and has id [now].  When no book of the
    collection has id [now] already, the new id differs from the id of every
    book that was there and looking it up right after the call gives the
    new record. *)
Theorem addBook_lookup (now : Z) (book : object) (s : Store) :
  ∃ stored,
    safeBooks (addBook now book s) = safeBooks s ++ [stored] ∧
    get stored "title" = get book "title" ∧
    get stored "author" = get book "author" ∧
    get stored "coverImage" = get book "coverImage" ∧
    get stored "readStatus" = get book "readStatus" ∧
    get stored "notes" = get book "notes" ∧
    get stored "id" = VNum now ∧
    ((∀ b, b ∈ safeBooks s → get b "id" ≠ VNum now) →
       (∀ b, b ∈ safeBooks s → get b "id" ≠ get stored "id") ∧
       lookupBook (get stored "id") (addBook now book s) = Some stored).
Proof.
  exists (<["id" := VNum now]> book).
  split; [apply safeBooks_addBook|].
  do 5 (split; [by apply get_insert_ne|]).
  split; [by apply get_insert_eq|].
  intros Hfresh. rewrite get_insert_eq. split; [done|].
  unfold lookupBook, selectedBook. rewrite safeBooks_addBook. simpl.
  apply find_app_fresh.
  - intros b Hb. apply strict_eq_false. by apply Hfresh.
  - rewrite get_insert_eq. apply strict_eq_refl.
Qed.

Lemma addBook_lookup_witness :
  ∃ stored,
    safeBooks
      (addBook 3 {[ "title" := VStr "A"; "author" := VStr "B" ]} dune_store)
      = safeBooks dune_store ++ [stored] ∧
    get stored "title" = VStr "A" ∧
    lookupBook (VNum 3)
      (addBook 3 {[ "title" := VStr "A"; "author" := VStr "B" ]} dune_store)
      = Some stored.
Proof.
  destruct (addBook_lookup 3 {[ "title" := VStr "A"; "author" := VStr "B" ]}
              dune_store)
    as (stored & Happ & Htitle & _ & _ & _ & _ & Hid & Hfresh).
  exists stored. split; [exact Happ|]. split; [exact Htitle|].
  rewrite <- Hid. apply Hfresh. single_record.
Defined.

(** C10.  The record that [addBook] or [addCharacter] stores has the clock
    reading as its id, whatever id the input carries; every other property
    is the input's. *)
Theorem add_overrides_id (now : Z) (input : object) (s : Store) :
  (∃ stored,
     safeBooks (addBook now input s) = safeBooks s ++ [stored] ∧
     get stored "id" = VNum now ∧
     ∀ k, k ≠ "id" → stored !! k = input !! k) ∧
  (∃ stored,
     safeCharacters (addCharacter now input s) = safeCharacters s ++ [stored] ∧
     get stored "id" = VNum now ∧
     ∀ k, k ≠ "id" → stored !! k = input !! k).
Proof.
  split; exists (<["id" := VNum now]> input).
  - split; [apply safeBooks_addBook|]. split; [by apply get_insert_eq|].
    intros k Hk. by apply lookup_insert_ne.
  - split; [apply safeCharacters_addCharacter|].
    split; [by apply get_insert_eq|].
    intros k Hk. by apply lookup_insert_ne.
Qed.

(** An input that carries the id 7 is stored under the reading 9. *)
Example add_overrides_supplied_id :
  safeBooks
    (addBook 9 {[ "id" := VNum 7; "title" := VStr "A" ]} initialStore)
    = [ {[ "id" := VNum 9; "title" := VStr "A" ]} ] ∧
  safeCharacters
    (addCharacter 9 {[ "id" := VNum 7; "name" := VStr "P" ]} initialStore)
    = [ {[ "id" := VNum 9; "name" := VStr "P" ]} ].
Proof. split; reflexivity. Qed.

(** ** Loading the store *)

Section LoadFacts.

Variable JSON_parse : string → option json.

Lemma load_collection_ok (stored : option string) set (s : Store) :
  unparseable JSON_parse stored = false →
  load_collection JSON_parse stored set s
    = (set (λ _, JArray (persisted JSON_parse stored)) s, Normal).
Proof.
  unfold unparseable, persisted, load_collection, truthy.
  destruct stored as [text|]; [|done].
  destruct (String.eqb text ""); simpl; [done|].
  by destruct (JSON_parse text) as [[]|].
Qed.

Lemma load_collection_throws (stored : option string) set (s : Store) :
  unparseable JSON_parse stored = true →
  load_collection JSON_parse stored set s = (s, Throw).
Proof.
  unfold unparseable, load_collection, truthy.
  destruct stored as [text|]; [|done].
  destruct (String.eqb text ""); simpl; [done|].
  intros Hnone%bool_decide_eq_true. by rewrite Hnone.
Qed.

End LoadFacts.

(** Whatever the payloads are, the load leaves arrays in both state
    variables. *)
Lemma load_stores_arrays (JSON_parse : string → option json)
    (storedBooks storedCharacters : option string) (s : Store) :
  well_formed (load JSON_parse storedBooks storedCharacters s).1 = true.
Proof.
  unfold load, load_try.
  destruct (unparseable JSON_parse storedBooks) eqn:Hb.
  - by rewrite load_collection_throws.
  - rewrite load_collection_ok by done.
    destruct (unparseable JSON_parse storedCharacters) eqn:Hc.
    + by rewrite load_collection_throws.
    + by rewrite load_collection_ok.
Qed.

(** Both state variables of the provider hold arrays, always. *)
Lemma reachable_well_formed (s : Store) : reachable s → well_formed s = true.
Proof.
  induction 1 as [|parse sb sc s _ _|now r s _ IH|r s _ IH|id s _ IH
                  |now r s _ IH|r s _ IH|id s _ IH].
  - done.
  - apply load_stores_arrays.
  - by apply (operations_store_arrays s now r VNull).
  - by apply (operations_store_arrays s 0 r VNull).
  - by apply (operations_store_arrays s 0 ∅ id).
  - by apply (operations_store_arrays s now r VNull).
  - by apply (operations_store_arrays s 0 r VNull).
  - by apply (operations_store_arrays s 0 ∅ id).
Qed.

(** The book payload holds Dune and the character payload is cut short:
    the load leaves both collections empty, the books too. *)
Lemma load_parse_failure_empties_both :
  sample_parse dune_text
    = Some (JArray [ {[ "id" := VNum 1; "title" := VStr "Dune" ]} ]) ∧
  sample_parse "{" = None ∧
  load sample_parse (Some dune_text) (Some "{") initialStore
    = (mkStore (JArray []) (JArray []), Normal) ∧
  safeBooks (load sample_parse (Some dune_text) (Some "{") initialStore).1
    ≠ [ {[ "id" := VNum 1; "title" := VStr "Dune" ]} ].
Proof. by vm_compute. Qed.

(** C3, amended.  The load always completes normally.  When [JSON.parse]
    throws on neither payload, each collection holds the records of its own
    payload, and none when that payload is absent, empty or not an array,
    whatever the other payload is.  When [JSON.parse] throws on either
    payload, both collections are empty. *)
Theorem load_degrades (JSON_parse : string → option json)
    (storedBooks storedCharacters : option string) (s : Store) :
  ∃ s',
    load JSON_parse storedBooks storedCharacters s = (s', Normal) ∧
    (unparseable JSON_parse storedBooks = false →
     unparseable JSON_parse storedCharacters = false →
       books s' = JArray (persisted JSON_parse storedBooks) ∧
       characters s' = JArray (persisted JSON_parse storedCharacters)) ∧
    (unparseable JSON_parse storedBooks = true ∨
     unparseable JSON_parse storedCharacters = true →
       books s' = JArray [] ∧ characters s' = JArray []).
Proof.
  unfold load, load_try.
  destruct (unparseable JSON_parse storedBooks) eqn:Hb.
  - rewrite load_collection_throws by done. eexists. split; [reflexivity|].
    split; [done|]. by intros _.
  - rewrite load_collection_ok by done.
    destruct (unparseable JSON_parse storedCharacters) eqn:Hc.
    + rewrite load_collection_throws by done. eexists. split; [reflexivity|].
      split; [done|]. by intros _.
    + rewrite load_collection_ok by done. eexists. split; [reflexivity|].
      split; [done|]. by intros [|].
Qed.

Lemma load_degrades_witness :
  (load sample_parse None (Some dune_text) initialStore).1
    = mkStore (JArray [])
        (JArray [ {[ "id" := VNum 1; "title" := VStr "Dune" ]} ]) ∧
  (load sample_parse (Some "{}") (Some "{") initialStore).1
    = mkStore (JArray []) (JArray []).
Proof.
  split.
  - destruct (load_degrades sample_parse None (Some dune_text) initialStore)
      as (s' & -> & Hok & _).
    destruct s' as [bs cs]. simpl in *.
    destruct Hok as [-> ->]; [by vm_compute..|reflexivity].
  - destruct (load_degrades sample_parse (Some "{}") (Some "{") initialStore)
      as (s' & -> & _ & Hthrow).
    destruct s' as [bs cs]. simpl in *.
    destruct Hthrow as [-> ->]; [right; by vm_compute|reflexivity].
Defined.

(** ** Updating a record *)

Section Update.

Variable updated : object.

Lemma swap_other (x : object) :
  get x "id" ≠ get updated "id" → swap updated x = x.
Proof. intros. unfold swap. by rewrite strict_eq_false. Qed.

Lemma swap_same (x : object) :
  get x "id" = get updated "id" → swap updated x = updated.
Proof. intros Heq. unfold swap. by rewrite Heq, strict_eq_refl. Qed.

Lemma swap_id (x : object) : get (swap updated x) "id" = get x "id".
Proof.
  destruct (decide (get x "id" = get updated "id")) as [Heq|Hne].
  - by rewrite swap_same.
  - by rewrite swap_other.
Qed.

Lemma map_swap_unknown (l : list object) :
  (∀ x, x ∈ l → get x "id" ≠ get updated "id") → swap updated <$> l = l.
Proof.
  induction l as [|x l IH]; intros Hall; [done|].
  rewrite fmap_cons, swap_other by (apply Hall; left).
  f_equal. apply IH. intros y Hy. apply Hall. by right.
Qed.

Lemma elem_of_map_swap (l : list object) (y : object) :
  y ∈ swap updated <$> l →
  get y "id" = get updated "id" → y = updated.
Proof.
  intros (x & -> & _)%list_elem_of_fmap. rewrite swap_id. apply swap_same.
Qed.

Lemma lookup_map_swap (l : list object) (i : nat) (x : object) :
  l !! i = Some x →
  (swap updated <$> l) !! i
    = Some (if decide (get x "id" = get updated "id") then updated else x).
Proof.
  intros Hi. rewrite list_lookup_fmap, Hi. simpl. f_equal.
  case_decide; [by apply swap_same|by apply swap_other].
Qed.

End Update.

(** Paul is edited with a payload that names another book: the stored
    record is the payload, with the other [bookId]. *)
Lemma updateCharacter_replaces_bookId :
  safeCharacters dune_store
    = [ {[ "id" := VNum 2; "name" := VStr "Paul"; "bookId" := VNum 1 ]} ] ∧
  safeCharacters
    (updateCharacter
       {[ "id" := VNum 2; "name" := VStr "Paul"; "bookId" := VNum 5 ]}
       dune_store)
    = [ {[ "id" := VNum 2; "name" := VStr "Paul"; "bookId" := VNum 5 ]} ] ∧
  VNum 5 ≠ VNum 1.
Proof. by vm_compute. Qed.

(** C4, amended.  When the payload of [updateCharacter] has the id of a
    character [c] of the store, a record with that id is in the collection
    after the call, and every record with that id there has the [bookId]
    of the payload: the id is kept, and the [bookId] is kept exactly when
    the payload carries the one [c] had. *)
Theorem updateCharacter_keeps_id (payload c : object) (s : Store) :
  c ∈ safeCharacters s →
  get payload "id" = get c "id" →
  (∃ c', c' ∈ safeCharacters (updateCharacter payload s) ∧
         get c' "id" = get c "id") ∧
  (∀ c', c' ∈ safeCharacters (updateCharacter payload s) →
         get c' "id" = get c "id" →
         get c' "bookId" = get payload "bookId") ∧
  (get payload "bookId" = get c "bookId" ↔
   ∀ c', c' ∈ safeCharacters (updateCharacter payload s) →
         get c' "id" = get c "id" →
         get c' "bookId" = get c "bookId").
Proof.
  intros Hc Hid. rewrite safeCharacters_updateCharacter.
  assert (∀ c', c' ∈ swap payload <$> safeCharacters s →
      get c' "id" = get c "id" → c' = payload) as Hall.
  { intros c' Hc' Hid'. eapply elem_of_map_swap; [exact Hc'|congruence]. }
  assert (payload ∈ swap payload <$> safeCharacters s) as Hin.
  { apply list_elem_of_fmap. exists c. split; [|done]. by rewrite swap_same. }
  split; [|split].
  - by exists payload.
  - intros c' Hc' Hid'. by rewrite (Hall c' Hc' Hid').
  - split.
    + intros Hbook c' Hc' Hid'. by rewrite (Hall c' Hc' Hid').
    + intros Hkept. by apply Hkept.
Qed.

Lemma updateCharacter_keeps_id_witness :
  (∃ c', c' ∈ safeCharacters
           (updateCharacter
              {[ "id" := VNum 2; "name" := VStr "Paul Atreides";
                 "bookId" := VNum 1 ]} dune_store) ∧
         get c' "id" = VNum 2) ∧
  (∀ c', c' ∈ safeCharacters
           (updateCharacter
              {[ "id" := VNum 2; "name" := VStr "Paul Atreides";
                 "bookId" := VNum 1 ]} dune_store) →
         get c' "id" = VNum 2 → get c' "bookId" = VNum 1).
Proof.
  destruct (updateCharacter_keeps_id
       {[ "id" := VNum 2; "name" := VStr "Paul Atreides"; "bookId" := VNum 1 ]}
       {[ "id" := VNum 2; "name" := VStr "Paul"; "bookId" := VNum 1 ]}
       dune_store ltac:(by left) ltac:(reflexivity))
    as (Hsome & _ & Hkept).
  split; [exact Hsome|]. apply (proj1 Hkept). reflexivity.
Defined.

(** C5.  A payload whose id is the id of no book is a no-op of
    [updateBook], and one whose id is the id of no character is a no-op of
    [updateCharacter]: both collections after the call are those before,
    and the store, whose state variables hold arrays, is the store before. *)
Theorem update_unknown_id_noop (payload : object) (s : Store) :
  ((∀ b, b ∈ safeBooks s → get b "id" ≠ get payload "id") →
     safeBooks (updateBook payload s) = safeBooks s ∧
     safeCharacters (updateBook payload s) = safeCharacters s ∧
     (well_formed s = true → updateBook payload s = s)) ∧
  ((∀ c, c ∈ safeCharacters s → get c "id" ≠ get payload "id") →
     safeBooks (updateCharacter payload s) = safeBooks s ∧
     safeCharacters (updateCharacter payload s) = safeCharacters s ∧
     (well_formed s = true → updateCharacter payload s = s)).
Proof.
  split; intros Hnone.
  - rewrite safeBooks_updateBook, map_swap_unknown by done.
    split; [done|]. split; [done|].
    destruct s as [[bs| |] [cs| |]]; try done. intros _.
    unfold updateBook, setBooks; simpl. do 2 f_equal.
    by apply (map_swap_unknown payload).
  - rewrite safeCharacters_updateCharacter, map_swap_unknown by done.
    split; [done|]. split; [done|].
    destruct s as [[bs| |] [cs| |]]; try done. intros _.
    unfold updateCharacter, setCharacters; simpl. do 2 f_equal.
    by apply (map_swap_unknown payload).
Qed.

Lemma update_unknown_id_noop_witness :
  updateBook {[ "id" := VNum 9; "title" := VStr "Emma" ]} dune_store
    = dune_store ∧
  updateCharacter {[ "id" := VNum 9; "name" := VStr "Emma" ]} dune_store
    = dune_store.
Proof.
  split.
  - apply (proj1 (update_unknown_id_noop
                    {[ "id" := VNum 9; "title" := VStr "Emma" ]} dune_store));
      [single_record|reflexivity].
  - apply (proj2 (update_unknown_id_noop
                    {[ "id" := VNum 9; "name" := VStr "Emma" ]} dune_store));
      [single_record|reflexivity].
Defined.

(** ** Navigation *)

(** C6.  [navigate] is total: from every state it leads to the state whose
    view is the target and whose two selections are the ids supplied, [null]
    for one that is not.  The state it leaves has no part in the result, so
    a selection that is not supplied again does not survive. *)
Theorem navigate_sets_all (targetView : string) (bookId charId : value)
    (n : Nav) :
  navigate targetView bookId charId n
    = mkNav targetView (or_null bookId) (or_null charId) ∧
  navigate targetView VUndefined VUndefined n = mkNav targetView VNull VNull ∧
  ∀ n', navigate targetView bookId charId n'
        = navigate targetView bookId charId n.
Proof.
  unfold navigate, setView, setSelectedBookId, setSelectedCharacterId; simpl.
  split; [|split].
  - by destruct bookId, charId.
  - done.
  - done.
Qed.

(** ** View routing *)

Section Routing.

Variables (s : Store) (n : Nav).

Lemma selectedBook_None :
  (∀ b, b ∈ safeBooks s → get b "id" ≠ selectedBookId n) →
  selectedBook s n = None.
Proof.
  intros Hnone. apply find_None. intros b Hb.
  apply strict_eq_false. by apply Hnone.
Qed.

Lemma selectedCharacter_None :
  (∀ c, c ∈ safeCharacters s → get c "id" ≠ selectedCharacterId n) →
  selectedCharacter s n = None.
Proof.
  intros Hnone. apply find_None. intros c Hc.
  apply strict_eq_false. by apply Hnone.
Qed.

End Routing.

(** C7.  In the views [viewBook] and [editBook], when no book has the
    selected book id, and in the views [viewCharacter] and [editCharacter],
    when no character has the selected character id, [renderView] gives
    the book list of the [books] view.  The view [addBook] gives its form
    whatever the selection is. *)
Theorem renderView_fallback (s : Store) (n : Nav) :
  (view n = "viewBook" ∨ view n = "editBook" →
   (∀ b, b ∈ safeBooks s → get b "id" ≠ selectedBookId n) →
   renderView s n = BookList VUndefined "My Books" ∧
   renderView s n = renderView s (setView "books" n)) ∧
  (view n = "viewCharacter" ∨ view n = "editCharacter" →
   (∀ c, c ∈ safeCharacters s → get c "id" ≠ selectedCharacterId n) →
   renderView s n = BookList VUndefined "My Books" ∧
   renderView s n = renderView s (setView "books" n)) ∧
  (view n = "addBook" → renderView s n = BookForm None).
Proof.
  split; [|split].
  - intros Hview Hnone. unfold renderView.
    rewrite selectedBook_None by done.
    by destruct Hview as [-> | ->].
  - intros Hview Hnone. unfold renderView.
    rewrite selectedCharacter_None by done.
    by destruct Hview as [-> | ->].
  - intros Hview. unfold renderView. by rewrite Hview.
Qed.

Lemma renderView_fallback_witness :
  renderView dune_store (navigate "viewBook" (VNum 7) VUndefined initialNav)
    = BookList VUndefined "My Books" ∧
  renderView dune_store (navigate "editCharacter" (VNum 1) (VNum 7) initialNav)
    = BookList VUndefined "My Books" ∧
  renderView initialStore (navigate "addBook" VUndefined VUndefined initialNav)
    = BookForm None.
Proof.
  split; [|split].
  - apply (proj1 (renderView_fallback dune_store
                    (navigate "viewBook" (VNum 7) VUndefined initialNav))).
    + by left.
    + single_record.
  - apply (proj1 (proj2 (renderView_fallback dune_store
                    (navigate "editCharacter" (VNum 1) (VNum 7) initialNav)))).
    + by right.
    + single_record.
  - by apply (proj2 (proj2 (renderView_fallback initialStore
                    (navigate "addBook" VUndefined VUndefined initialNav)))).
Defined.

(** A view whose record is there renders its own component. *)
Example renderView_resolved :
  renderView dune_store (navigate "viewBook" (VNum 1) VUndefined initialNav)
    = BookDetail
        {[ "title" := VStr "Dune"; "author" := VStr "Herrick"; "id" := VNum 1 ]}
        [ {[ "name" := VStr "Paul"; "bookId" := VNum 1; "id" := VNum 2 ]} ] ∧
  renderView dune_store (navigate "viewCharacter" (VNum 1) (VNum 2) initialNav)
    = CharacterDetail
        {[ "name" := VStr "Paul"; "bookId" := VNum 1; "id" := VNum 2 ]}.
Proof. split; reflexivity. Qed.

(** ** Insertion order *)

(** C8.  The two additions put the new record after the records that were
    there; the two updates keep the length and every position, a record
    that is not replaced staying where it was; after the three deletions
    each collection is a sublist of what it was, the survivors in the order
    they had.  No operation reorders a collection. *)
Theorem operations_keep_order (now : Z) (r : object) (id : value) (s : Store) :
  (∃ x, safeBooks (addBook now r s) = safeBooks s ++ [x]) ∧
  safeCharacters (addBook now r s) = safeCharacters s ∧
  (∃ x, safeCharacters (addCharacter now r s) = safeCharacters s ++ [x]) ∧
  safeBooks (addCharacter now r s) = safeBooks s ∧
  replaced_in_place r (safeBooks s) (safeBooks (updateBook r s)) ∧
  safeCharacters (updateBook r s) = safeCharacters s ∧
  replaced_in_place r (safeCharacters s)
    (safeCharacters (updateCharacter r s)) ∧
  safeBooks (updateCharacter r s) = safeBooks s ∧
  sublist (safeBooks (deleteBook id s)) (safeBooks s) ∧
  sublist (safeCharacters (deleteBook id s)) (safeCharacters s) ∧
  sublist (safeCharacters (deleteCharacter id s)) (safeCharacters s) ∧
  safeBooks (deleteCharacter id s) = safeBooks s.
Proof.
  assert (∀ l, replaced_in_place r l (swap r <$> l)) as Hmap.
  { intros l. split; [by rewrite length_fmap|].
    intros i x Hi. by apply lookup_map_swap. }
  rewrite safeBooks_addBook, safeCharacters_addCharacter,
    safeBooks_updateBook, safeCharacters_updateCharacter,
    safeBooks_deleteBook, safeCharacters_deleteBook,
    safeCharacters_deleteCharacter.
  split; [by eexists|]. split; [done|].
  split; [by eexists|]. split; [done|].
  split; [apply Hmap|]. split; [done|].
  split; [apply Hmap|]. split; [done|].
  split; [exact (sublist_filter _ _)|].
  split; [exact (sublist_filter _ _)|].
  split; [exact (sublist_filter _ _)|done].
Qed.

(** ** The status filters *)

(** C9.  The [wishlist] view is the book list with the filter [To Read] and
    the [readBooks] view the one with the filter [Read]; the list with a
    filter shows the books of the store whose [readStatus] is the filter's,
    and no other.  A book added with [readStatus] [To Read] is in the first
    list and not in the second. *)
Theorem status_filters (s : Store) (n : Nav) :
  renderView s (navigate "wishlist" VUndefined VUndefined n)
    = BookList (VStr "To Read") "My Wishlist" ∧
  renderView s (navigate "readBooks" VUndefined VUndefined n)
    = BookList (VStr "Read") "Books Read" ∧
  (∀ b, b ∈ filteredBooks (books s) (VStr "To Read") ↔
        b ∈ safeBooks s ∧ get b "readStatus" = VStr "To Read") ∧
  (∀ b, b ∈ filteredBooks (books s) (VStr "Read") ↔
        b ∈ safeBooks s ∧ get b "readStatus" = VStr "Read") ∧
  (∀ now book, get book "readStatus" = VStr "To Read" →
     <["id" := VNum now]> book
       ∈ filteredBooks (books (addBook now book s)) (VStr "To Read") ∧
     <["id" := VNum now]> book
       ∉ filteredBooks (books (addBook now book s)) (VStr "Read")).
Proof.
  assert (∀ s' status b, status ≠ "" →
    b ∈ filteredBooks (books s') (VStr status) ↔
    b ∈ safeBooks s' ∧ get b "readStatus" = VStr status) as Hfilter.
  { intros s' status b Hstatus. unfold filteredBooks, safeBooks; simpl.
    apply String.eqb_neq in Hstatus. rewrite Hstatus; simpl.
    rewrite list_elem_of_filter, strict_eq_spec. tauto. }
  split; [reflexivity|]. split; [reflexivity|].
  split; [intros b; by apply Hfilter|].
  split; [intros b; by apply Hfilter|].
  intros now book Hstatus.
  assert (get (<["id" := VNum now]> book) "readStatus" = VStr "To Read")
    as Hstored by (by rewrite get_insert_ne).
  split.
  - apply Hfilter; [done|]. split; [|done].
    rewrite safeBooks_addBook. apply elem_of_app. right. by left.
  - intros [_ Hread]%Hfilter; [|done]. congruence.
Qed.

Lemma status_filters_witness :
  filteredBooks
    (books (addBook 3 {[ "title" := VStr "A"; "author" := VStr "B";
                         "readStatus" := VStr "To Read" ]} dune_store))
    (VStr "To Read")
    = [ {[ "title" := VStr "A"; "author" := VStr "B";
           "readStatus" := VStr "To Read"; "id" := VNum 3 ]} ] ∧
  <["id" := VNum 3]> {[ "title" := VStr "A"; "author" := VStr "B";
                        "readStatus" := VStr "To Read" ]}
    ∉ filteredBooks
        (books (addBook 3 {[ "title" := VStr "A"; "author" := VStr "B";
                             "readStatus" := VStr "To Read" ]} dune_store))
        (VStr "Read").
Proof.
  split; [reflexivity|].
  apply (proj2 (proj2 (proj2 (proj2
    (status_filters dune_store initialNav)))) 3
    {[ "title" := VStr "A"; "author" := VStr "B";
       "readStatus" := VStr "To Read" ]}).
  reflexivity.
Defined.

(** * Further properties of the store *)

Section Lists.

Lemma find_cons (p : object → bool) (x : object) (l : list object) :
  find p (x :: l) = if p x then Some x else find p l.
Proof.
  unfold find. simpl. case_decide as Hp.
  - apply Is_true_true in Hp. by rewrite Hp.
  - destruct (p x); [by destruct Hp|].
    by destruct (list_find (λ y, p y) l) as [[]|].
Qed.

Lemma find_elem_of (p : object → bool) (l : list object) (x : object) :
  find p l = Some x → x ∈ l ∧ p x = true.
Proof.
  intros (l1 & l2 & -> & Hp & _)%find_Some. split; [|done].
  apply elem_of_app. right. by left.
Qed.

(** [find] gives something when an element passes the test. *)
Lemma find_is_Some (p : object → bool) (l : list object) (x : object) :
  x ∈ l → p x = true → ∃ y, find p l = Some y.
Proof.
  intros Hx Hp. destruct (find p l) as [y|] eqn:Hfind; [by exists y|].
  rewrite find_None in Hfind. specialize (Hfind x Hx). congruence.
Qed.

Lemma filter_twice {A} (P : A → Prop) `{!∀ x, Decision (P x)} (l : list A) :
  filter P (filter P l) = filter P l.
Proof.
  apply filter_keeps_all. intros x Hx. by apply list_elem_of_filter in Hx as [? _].
Qed.

Lemma filter_swap {A} (P Q : A → Prop) `{!∀ x, Decision (P x)}
    `{!∀ x, Decision (Q x)} (l : list A) :
  filter P (filter Q l) = filter Q (filter P l).
Proof.
  induction l as [|x l IH]; [done|].
  destruct (decide (P x)) as [HP|HP], (decide (Q x)) as [HQ|HQ].
  - rewrite (filter_cons_True Q), (filter_cons_True P) by done.
    rewrite (filter_cons_True P), (filter_cons_True Q) by done. by f_equal.
  - rewrite (filter_cons_False Q), (filter_cons_True P) by done.
    by rewrite (filter_cons_False Q) by done.
  - rewrite (filter_cons_True Q), (filter_cons_False P) by done.
    by rewrite (filter_cons_False P) by done.
  - by rewrite (filter_cons_False Q), (filter_cons_False P) by done.
Qed.

(** After the [map] of an update, [find] by the payload's id gives the
    payload when a record had that id. *)
Lemma find_map_swap (payload : object) (l : list object) :
  (∃ x, x ∈ l ∧ get x "id" = get payload "id") →
  find (λ r, strict_eq (get r "id") (get payload "id")) (swap payload <$> l)
    = Some payload.
Proof.
  induction l as [|y l IH]; intros (x & Hx & Hid).
  - by apply elem_of_nil in Hx.
  - rewrite fmap_cons, find_cons, swap_id.
    destruct (decide (get y "id" = get payload "id")) as [Heq|Hne].
    + by rewrite Heq, strict_eq_refl, swap_same.
    + rewrite strict_eq_false by done. apply IH.
      apply elem_of_cons in Hx as [->|Hx]; [done|]. by exists x.
Qed.

Lemma ids_map_swap (payload : object) (l : list object) :
  ids (swap payload <$> l) = ids l.
Proof.
  unfold ids. rewrite <- list_fmap_compose. apply list_fmap_ext.
  intros i x _. simpl. apply swap_id.
Qed.

End Lists.

(** X1.  [deleteCharacter(id)] keeps exactly the characters whose id is not
    [id], in their order, and leaves the books alone: no cascade.  With no
    character of that id the collection is the one before. *)
Theorem deleteCharacter_exact (id : value) (s : Store) :
  (∀ c, c ∈ safeCharacters (deleteCharacter id s) ↔
        c ∈ safeCharacters s ∧ get c "id" ≠ id) ∧
  books (deleteCharacter id s) = books s ∧
  ((∀ c, c ∈ safeCharacters s → get c "id" ≠ id) →
     safeCharacters (deleteCharacter id s) = safeCharacters s).
Proof.
  rewrite safeCharacters_deleteCharacter.
  split; [intros c; apply elem_of_filter_ne|]. split; [done|].
  intros Hnone. apply filter_keeps_all. intros c Hc.
  apply strict_ne_spec. by apply Hnone.
Qed.

Lemma deleteCharacter_exact_witness :
  safeCharacters (deleteCharacter (VNum 7) dune_store)
    = safeCharacters dune_store.
Proof.
  apply (proj2 (proj2 (deleteCharacter_exact (VNum 7) dune_store))).
  single_record.
Defined.

(** X2.  After [updateBook] with a payload whose id some book has, looking
    that id up gives the payload; and the same for [updateCharacter] and
    the selected character. *)
Theorem update_then_lookup (payload : object) (s : Store) (n : Nav) :
  ((∃ b, b ∈ safeBooks s ∧ get b "id" = get payload "id") →
   selectedBookId n = get payload "id" →
   selectedBook (updateBook payload s) n = Some payload) ∧
  ((∃ c, c ∈ safeCharacters s ∧ get c "id" = get payload "id") →
   selectedCharacterId n = get payload "id" →
   selectedCharacter (updateCharacter payload s) n = Some payload).
Proof.
  split; intros Hsome Hsel.
  - unfold selectedBook. rewrite safeBooks_updateBook, Hsel.
    by apply find_map_swap.
  - unfold selectedCharacter. rewrite safeCharacters_updateCharacter, Hsel.
    by apply find_map_swap.
Qed.

Lemma update_then_lookup_witness :
  selectedBook
    (updateBook {[ "id" := VNum 1; "title" := VStr "Dune Messiah" ]} dune_store)
    (mkNav "viewBook" (VNum 1) VNull)
    = Some {[ "id" := VNum 1; "title" := VStr "Dune Messiah" ]}.
Proof.
  apply (proj1 (update_then_lookup
                  {[ "id" := VNum 1; "title" := VStr "Dune Messiah" ]}
                  dune_store (mkNav "viewBook" (VNum 1) VNull))).
  - eexists. split; [by left|reflexivity].
  - reflexivity.
Defined.

(** X3.  An update changes no id and no length: the ids of a collection
    after [updateBook] or [updateCharacter] are the ids before, one by one,
    whatever the payload. *)
Theorem update_keeps_ids (payload : object) (s : Store) :
  ids (safeBooks (updateBook payload s)) = ids (safeBooks s) ∧
  ids (safeCharacters (updateCharacter payload s)) = ids (safeCharacters s) ∧
  length (safeBooks (updateBook payload s)) = length (safeBooks s) ∧
  length (safeCharacters (updateCharacter payload s))
    = length (safeCharacters s).
Proof.
  rewrite safeBooks_updateBook, safeCharacters_updateCharacter.
  rewrite !ids_map_swap, !length_fmap. done.
Qed.

(** X4.  When every character names a book of the store, this is still so
    after [deleteBook], which takes the characters of the book with it,
    after [addBook], [updateBook] and [deleteCharacter], and after
    [addCharacter] and [updateCharacter] with a record that names a book of
    the store. *)
Theorem integrity_preserved (now : Z) (r : object) (id : value) (s : Store) :
  integrity s →
  integrity (deleteBook id s) ∧
  integrity (addBook now r s) ∧
  integrity (updateBook r s) ∧
  integrity (deleteCharacter id s) ∧
  ((∃ b, b ∈ safeBooks s ∧ get b "id" = get r "bookId") →
     integrity (addCharacter now r s) ∧ integrity (updateCharacter r s)).
Proof.
  intros Hint. unfold integrity in *.
  split; [|split; [|split; [|split]]].
  - rewrite safeBooks_deleteBook, safeCharacters_deleteBook.
    intros c [Hc Hne]%elem_of_filter_ne.
    destruct (Hint c Hc) as (b & Hb & Hid).
    exists b. split; [|done]. apply elem_of_filter_ne. split; [done|congruence].
  - rewrite safeBooks_addBook. intros c Hc.
    destruct (Hint c Hc) as (b & Hb & Hid).
    exists b. split; [|done]. apply elem_of_app. by left.
  - rewrite safeBooks_updateBook. intros c Hc.
    destruct (Hint c Hc) as (b & Hb & Hid).
    exists (swap r b). split; [by apply list_elem_of_fmap_2|].
    by rewrite swap_id.
  - rewrite safeCharacters_deleteCharacter.
    intros c [Hc _]%elem_of_filter_ne. by apply Hint.
  - intros (b & Hb & Hid). split.
    + rewrite safeCharacters_addCharacter.
      intros c [Hc| ->%list_elem_of_singleton]%elem_of_app; [by apply Hint|].
      exists b. split; [done|]. by rewrite get_insert_ne.
    + rewrite safeCharacters_updateCharacter.
      intros c (c0 & -> & Hc0)%list_elem_of_fmap.
      destruct (decide (get c0 "id" = get r "id")) as [Heq|Hne].
      * rewrite swap_same by done. by exists b.
      * rewrite swap_other by done. by apply Hint.
Qed.

Lemma integrity_preserved_witness :
  integrity (deleteBook (VNum 1) dune_store) ∧
  integrity
    (addCharacter 3 {[ "name" := VStr "Jessica"; "bookId" := VNum 1 ]}
       dune_store).
Proof.
  assert (integrity dune_store) as Hint.
  { intros c Hc. apply list_elem_of_singleton in Hc. subst c.
    eexists. split; [by left|reflexivity]. }
  destruct (integrity_preserved 3
              {[ "name" := VStr "Jessica"; "bookId" := VNum 1 ]}
              (VNum 1) dune_store Hint) as (Hdel & _ & _ & _ & Hadd).
  split; [exact Hdel|]. apply Hadd.
  eexists. split; [by left|reflexivity].
Defined.

(** The store does not check the [bookId] of an added character: one that
    names no book is stored all the same. *)
Example addCharacter_dangling :
  safeCharacters
    (addCharacter 3 {[ "name" := VStr "X"; "bookId" := VNum 9 ]} initialStore)
    = [ {[ "name" := VStr "X"; "bookId" := VNum 9; "id" := VNum 3 ]} ] ∧
  safeBooks
    (addCharacter 3 {[ "name" := VStr "X"; "bookId" := VNum 9 ]} initialStore)
    = [].
Proof. split; reflexivity. Qed.

(** X5.  Deleting a book twice is deleting it once, and two deletions give
    the same store in either order. *)
Theorem deleteBook_idempotent_commutes (a b : value) (s : Store) :
  deleteBook a (deleteBook a s) = deleteBook a s ∧
  deleteBook a (deleteBook b s) = deleteBook b (deleteBook a s).
Proof.
  unfold deleteBook, setBooks, setCharacters; simpl.
  split.
  - destruct (books s), (characters s); simpl; by rewrite ?filter_twice.
  - destruct (books s) as [bs| |], (characters s) as [cs| |]; simpl;
      try done; f_equal; f_equal; try apply filter_swap.
Qed.

(** X6.  Adding a book at a reading that is the id of no book and deleting
    the book of that id gives the books back as they were; when every
    character names a book of the store, the characters too. *)
Theorem addBook_deleteBook_undo (now : Z) (book : object) (s : Store) :
  (∀ b, b ∈ safeBooks s → get b "id" ≠ VNum now) →
  safeBooks (deleteBook (VNum now) (addBook now book s)) = safeBooks s ∧
  (integrity s →
   safeCharacters (deleteBook (VNum now) (addBook now book s))
     = safeCharacters s).
Proof.
  intros Hfresh.
  rewrite safeBooks_deleteBook, safeCharacters_deleteBook, safeBooks_addBook.
  split.
  - rewrite filter_app, filter_keeps_all.
    + rewrite filter_cons_False, filter_nil; [by rewrite app_nil_r|].
      rewrite strict_ne_spec, get_insert_eq. by intros [].
    + intros b Hb. apply strict_ne_spec. by apply Hfresh.
  - intros Hint. apply filter_keeps_all. intros c Hc. apply strict_ne_spec.
    destruct (Hint c Hc) as (b & Hb & Hid). rewrite <- Hid. by apply Hfresh.
Qed.

Lemma addBook_deleteBook_undo_witness :
  safeBooks
    (deleteBook (VNum 3)
       (addBook 3 {[ "title" := VStr "A"; "author" := VStr "B" ]} dune_store))
    = safeBooks dune_store.
Proof.
  apply (proj1 (addBook_deleteBook_undo 3
                  {[ "title" := VStr "A"; "author" := VStr "B" ]} dune_store
                  ltac:(single_record))).
Defined.

(** * Persistence *)

(** X7.  What the two save effects write for a store of arrays is what the
    load effect reads back, on a runtime whose [JSON.parse] undoes its
    [JSON.stringify] on the two collections; the save effects leave every
    other key of the storage alone. *)
Theorem save_then_load (JSON_parse : string → option json)
    (JSON_stringify : json → string) (s s0 : Store) (ls : storage) :
  well_formed s = true →
  JSON_stringify (books s) ≠ "" →
  JSON_parse (JSON_stringify (books s)) = Some (books s) →
  JSON_stringify (characters s) ≠ "" →
  JSON_parse (JSON_stringify (characters s)) = Some (characters s) →
  loadEffect JSON_parse
    (saveCharactersEffect JSON_stringify s
       (saveBooksEffect JSON_stringify s ls)) s0 = (s, Normal) ∧
  ∀ k, k ≠ "books" → k ≠ "characters" →
    saveCharactersEffect JSON_stringify s
      (saveBooksEffect JSON_stringify s ls) !! k = ls !! k.
Proof.
  intros Hwf Hb Hpb Hc Hpc.
  destruct s as [bs cs]. unfold well_formed in Hwf. simpl in *.
  apply andb_true_iff in Hwf as [Hbs Hcs].
  unfold loadEffect, saveCharactersEffect, saveBooksEffect; simpl.
  rewrite Hbs, Hcs. split.
  - rewrite lookup_insert_ne, !lookup_insert_eq by done.
    unfold load, load_try, load_collection, truthy.
    apply String.eqb_neq in Hb, Hc. rewrite Hb, Hc; simpl.
    rewrite Hpb, Hpc, Hbs, Hcs. done.
  - intros k Hk1 Hk2. by rewrite !lookup_insert_ne.
Qed.

Lemma save_then_load_witness :
  loadEffect sample_parse
    (saveCharactersEffect sample_stringify
       (mkStore (JArray [ {[ "id" := VNum 1; "title" := VStr "Dune" ]} ])
                (JArray []))
       (saveBooksEffect sample_stringify
          (mkStore (JArray [ {[ "id" := VNum 1; "title" := VStr "Dune" ]} ])
                   (JArray []))
          ∅)) initialStore
    = (mkStore (JArray [ {[ "id" := VNum 1; "title" := VStr "Dune" ]} ])
               (JArray []), Normal).
Proof.
  apply (save_then_load sample_parse sample_stringify
           (mkStore (JArray [ {[ "id" := VNum 1; "title" := VStr "Dune" ]} ])
                    (JArray []))
           initialStore ∅); by vm_compute.
Defined.

(** * Routing to a record that is there *)

(** X8.  When a book has the selected book id, [viewBook] renders the
    detail of a book of the store with that id, with the characters whose
    [bookId] is that id and no other, in the order of the store, and
    [editBook] renders the form on that book; when a character has the
    selected character id, [viewCharacter] and [editCharacter] render the
    detail and the form of a character of the store with that id. *)
Theorem renderView_resolves (s : Store) (n : Nav) :
  ((∃ b, b ∈ safeBooks s ∧ get b "id" = selectedBookId n) →
   ∃ b, b ∈ safeBooks s ∧ get b "id" = selectedBookId n ∧
     (view n = "viewBook" →
      renderView s n = BookDetail b (charactersForSelectedBook s n)) ∧
     (view n = "editBook" → renderView s n = BookForm (Some b))) ∧
  ((∃ c, c ∈ safeCharacters s ∧ get c "id" = selectedCharacterId n) →
   ∃ c, c ∈ safeCharacters s ∧ get c "id" = selectedCharacterId n ∧
     (view n = "viewCharacter" → renderView s n = CharacterDetail c) ∧
     (view n = "editCharacter" →
      renderView s n = CharacterForm (selectedBookId n) (Some c))) ∧
  (∀ c, c ∈ charactersForSelectedBook s n ↔
        c ∈ safeCharacters s ∧ get c "bookId" = selectedBookId n) ∧
  sublist (charactersForSelectedBook s n) (safeCharacters s).
Proof.
  split; [|split; [|split]].
  - intros (b0 & Hb0 & Hid0).
    destruct (find_is_Some
                (λ b, strict_eq (get b "id") (selectedBookId n))
                (safeBooks s) b0 Hb0) as [b Hfind].
    { rewrite Hid0. apply strict_eq_refl. }
    destruct (find_elem_of _ _ _ Hfind) as [Hb Hid].
    apply Is_true_true, strict_eq_spec in Hid.
    exists b. split; [done|]. split; [done|].
    unfold renderView, selectedBook. rewrite Hfind.
    split; by intros ->.
  - intros (c0 & Hc0 & Hid0).
    destruct (find_is_Some
                (λ c, strict_eq (get c "id") (selectedCharacterId n))
                (safeCharacters s) c0 Hc0) as [c Hfind].
    { rewrite Hid0. apply strict_eq_refl. }
    destruct (find_elem_of _ _ _ Hfind) as [Hc Hid].
    apply Is_true_true, strict_eq_spec in Hid.
    exists c. split; [done|]. split; [done|].
    unfold renderView, selectedCharacter. rewrite Hfind.
    split; by intros ->.
  - intros c. unfold charactersForSelectedBook.
    rewrite list_elem_of_filter, strict_eq_spec. tauto.
  - exact (sublist_filter _ _).
Qed.

Lemma renderView_resolves_witness :
  ∃ b, get b "id" = VNum 1 ∧
    renderView dune_store (mkNav "viewBook" (VNum 1) VNull)
      = BookDetail b
          (charactersForSelectedBook dune_store
             (mkNav "viewBook" (VNum 1) VNull)).
Proof.
  destruct (proj1 (renderView_resolves dune_store
                     (mkNav "viewBook" (VNum 1) VNull)))
    as (b & _ & Hid & Hview & _).
  - eexists. split; [by left|reflexivity].
  - exists b. split; [exact Hid|]. by apply Hview.
Defined.

(** * The forms *)

Section Forms.

Lemma or_else_string (t : string) : or_else (VStr t) (VStr "") = VStr t.
Proof.
  unfold or_else, truthy. destruct (String.eqb_spec t ""); by subst.
Qed.

Lemma default_param_defined (v d : value) :
  v ≠ VUndefined → default_param v d = v.
Proof. by destruct v. Qed.

Lemma truthy_defined (v : value) : truthy v = true → v ≠ VUndefined.
Proof. by destruct v. Qed.

Lemma find_map_swap_id (payload : object) (id : value) (l : list object) :
  get payload "id" = id →
  (∃ x, x ∈ l ∧ get x "id" = id) →
  find (λ r, strict_eq (get r "id") id) (swap payload <$> l) = Some payload.
Proof. intros <-. apply find_map_swap. Qed.

Lemma map_id_on {A} (f : A → A) (l : list A) :
  (∀ x, x ∈ l → f x = x) → f <$> l = l.
Proof.
  induction l as [|x l IH]; intros Hall; [done|].
  rewrite fmap_cons, Hall by left. f_equal. apply IH.
  intros y Hy. apply Hall. by right.
Qed.

End Forms.



(** X10.  [handleSubmit] of the add form with a title and an author puts
    one record after the books that were there: it has the five fields of
    the form, the clock reading as its id and no other property.  The
    characters and the alerts stay, and the view that follows is the list
    of all books. *)
Theorem BookForm_adds (now : Z) (f : Book.form) (u : UI) :
  truthy (Book.title f) = true →
  truthy (Book.author f) = true →
  ∃ stored,
    safeBooks (store (BookForm_handleSubmit now None f u))
      = safeBooks (store u) ++ [stored] ∧
    stored !! "id" = Some (VNum now) ∧
    stored !! "title" = Some (Book.title f) ∧
    stored !! "author" = Some (Book.author f) ∧
    stored !! "coverImage" = Some (Book.coverImage f) ∧
    stored !! "readStatus" = Some (Book.readStatus f) ∧
    stored !! "notes" = Some (Book.notes f) ∧
    size stored = 6%nat ∧
    characters (store (BookForm_handleSubmit now None f u))
      = characters (store u) ∧
    alerts (BookForm_handleSubmit now None f u) = alerts u ∧
    renderView (store (BookForm_handleSubmit now None f u))
               (nav (BookForm_handleSubmit now None f u))
      = BookList VUndefined "My Books".
Proof.
  intros Ht Ha. unfold BookForm_handleSubmit. rewrite Ht, Ha. simpl.
  eexists. split; [apply safeBooks_addBook|].
  repeat (split; [reflexivity|]). reflexivity.
Qed.

Lemma BookForm_adds_witness :
  ∃ stored,
    safeBooks
      (store
         (BookForm_handleSubmit 5 None
            (Book.mkForm (VStr "Emma") (VStr "Austen") (VStr "")
               (VStr "To Read") (VStr ""))
            (mkUI dune_store initialNav [])))
      = safeBooks dune_store ++ [stored] ∧
    stored !! "id" = Some (VNum 5).
Proof.
  destruct (BookForm_adds 5
              (Book.mkForm (VStr "Emma") (VStr "Austen") (VStr "")
                 (VStr "To Read") (VStr ""))
              (mkUI dune_store initialNav []) eq_refl eq_refl)
    as (stored & Happ & Hid & _).
  exists stored. by split.
Defined.

(** X11.  From the page of a book of the store, with an id that is not
    [undefined], Edit Book Info opens the form on a book with that id; when
    the form is submitted with a title and an author, the store keeps its
    ids and its characters, and the page that follows shows a book with the
    same id and the five fields of the form. *)
Theorem BookForm_edit_flow (now : Z) (book : object) (f : Book.form) (u : UI) :
  book ∈ safeBooks (store u) →
  get book "id" ≠ VUndefined →
  truthy (Book.title f) = true →
  truthy (Book.author f) = true →
  ∃ existingBook saved,
    renderView (store (BookDetail_onEdit book u))
               (nav (BookDetail_onEdit book u))
      = BookForm (Some existingBook) ∧
    get existingBook "id" = get book "id" ∧
    renderView
      (store (BookForm_handleSubmit now (Some existingBook) f
                (BookDetail_onEdit book u)))
      (nav (BookForm_handleSubmit now (Some existingBook) f
              (BookDetail_onEdit book u)))
      = BookDetail saved
          (filter (λ c, strict_eq (get c "bookId") (get book "id"))
             (safeCharacters (store u))) ∧
    get saved "id" = get book "id" ∧
    get saved "title" = Book.title f ∧
    get saved "author" = Book.author f ∧
    get saved "coverImage" = Book.coverImage f ∧
    get saved "readStatus" = Book.readStatus f ∧
    get saved "notes" = Book.notes f ∧
    ids (safeBooks
           (store (BookForm_handleSubmit now (Some existingBook) f
                     (BookDetail_onEdit book u))))
      = ids (safeBooks (store u)) ∧
    characters
      (store (BookForm_handleSubmit now (Some existingBook) f
                (BookDetail_onEdit book u)))
      = characters (store u).
Proof.
  intros Hbook Hdef Ht Ha.
  destruct (find_is_Some (λ b, strict_eq (get b "id") (get book "id"))
              (safeBooks (store u)) book Hbook (strict_eq_refl _))
    as [existing Hfind].
  destruct (find_elem_of _ _ _ Hfind) as [Hin Hid].
  apply Is_true_true, strict_eq_spec in Hid.
  exists existing. eexists.
  unfold BookDetail_onEdit, BookForm_handleSubmit, on_nav, on_store, navigate.
  rewrite Ht, Ha. simpl. rewrite Hid.
  rewrite (default_param_defined _ _ Hdef).
  split.
  { unfold renderView, selectedBook; simpl. by rewrite Hfind. }
  split; [done|].
  split.
  { unfold renderView, selectedBook, charactersForSelectedBook; simpl.
    rewrite safeBooks_updateBook.
    rewrite find_map_swap_id; [reflexivity..|]. by exists book. }
  rewrite safeBooks_updateBook, ids_map_swap.
  repeat (split; [first [reflexivity|done]|]). done.
Qed.

Lemma BookForm_edit_flow_witness :
  ∃ saved,
    renderView
      (store (BookForm_handleSubmit 5
                (Some {[ "title" := VStr "Dune"; "author" := VStr "Herrick";
                         "id" := VNum 1 ]})
                (Book.mkForm (VStr "Dune") (VStr "Herbert") (VStr "")
                   (VStr "Read") (VStr ""))
                (BookDetail_onEdit
                   {[ "title" := VStr "Dune"; "author" := VStr "Herrick";
                      "id" := VNum 1 ]}
                   (mkUI dune_store initialNav []))))
      (nav (BookForm_handleSubmit 5
              (Some {[ "title" := VStr "Dune"; "author" := VStr "Herrick";
                       "id" := VNum 1 ]})
              (Book.mkForm (VStr "Dune") (VStr "Herbert") (VStr "")
                 (VStr "Read") (VStr ""))
              (BookDetail_onEdit
                 {[ "title" := VStr "Dune"; "author" := VStr "Herrick";
                    "id" := VNum 1 ]}
                 (mkUI dune_store initialNav []))))
      = BookDetail saved
          [ {[ "name" := VStr "Paul"; "bookId" := VNum 1; "id" := VNum 2 ]} ] ∧
    get saved "author" = VStr "Herbert".
Proof.
  destruct (BookForm_edit_flow 5
              {[ "title" := VStr "Dune"; "author" := VStr "Herrick";
                 "id" := VNum 1 ]}
              (Book.mkForm (VStr "Dune") (VStr "Herbert") (VStr "")
                 (VStr "Read") (VStr ""))
              (mkUI dune_store initialNav []))
    as (existing & saved & Hform & _ & Hview & _ & _ & Hauthor & _);
    [by left|done|done|done|].
  vm_compute in Hform. injection Hform as <-.
  exists saved. split; [exact Hview|exact Hauthor].
Defined.

(** X12.  A book with the six properties of the form, all texts but the id,
    goes through the edit form unchanged: the form opens with its five
    fields, and submitting it as it opens, with a title and an author,
    writes the book itself; when the book is the only record of its id the
    books after the submission are the books before. *)
Theorem BookForm_unchanged_round_trip (now : Z) (id : value)
    (t a c r nt : string) (u : UI) :
  t ≠ "" → a ≠ "" →
  BookForm_init
    (Some {[ "id" := id; "title" := VStr t; "author" := VStr a;
             "coverImage" := VStr c; "readStatus" := VStr r;
             "notes" := VStr nt ]})
    = Book.mkForm (VStr t) (VStr a) (VStr c) (VStr r) (VStr nt) ∧
  store
    (BookForm_handleSubmit now
       (Some {[ "id" := id; "title" := VStr t; "author" := VStr a;
                "coverImage" := VStr c; "readStatus" := VStr r;
                "notes" := VStr nt ]})
       (BookForm_init
          (Some {[ "id" := id; "title" := VStr t; "author" := VStr a;
                   "coverImage" := VStr c; "readStatus" := VStr r;
                   "notes" := VStr nt ]})) u)
    = updateBook {[ "id" := id; "title" := VStr t; "author" := VStr a;
                    "coverImage" := VStr c; "readStatus" := VStr r;
                    "notes" := VStr nt ]} (store u) ∧
  ((∀ x, x ∈ safeBooks (store u) → get x "id" = id →
         x = {[ "id" := id; "title" := VStr t; "author" := VStr a;
                "coverImage" := VStr c; "readStatus" := VStr r;
                "notes" := VStr nt ]}) →
   safeBooks
     (store
        (BookForm_handleSubmit now
           (Some {[ "id" := id; "title" := VStr t; "author" := VStr a;
                    "coverImage" := VStr c; "readStatus" := VStr r;
                    "notes" := VStr nt ]})
           (BookForm_init
              (Some {[ "id" := id; "title" := VStr t; "author" := VStr a;
                       "coverImage" := VStr c; "readStatus" := VStr r;
                       "notes" := VStr nt ]})) u))
     = safeBooks (store u)).
Proof.
  intros Ht Ha.
  set (b := ({[ "id" := id; "title" := VStr t; "author" := VStr a;
                "coverImage" := VStr c; "readStatus" := VStr r;
                "notes" := VStr nt ]} : object)).
  assert (BookForm_init (Some b)
          = Book.mkForm (VStr t) (VStr a) (VStr c) (VStr r) (VStr nt))
    as Hinit.
  { unfold BookForm_init, opt_get.
    change (get b "title") with (VStr t).
    change (get b "author") with (VStr a).
    change (get b "coverImage") with (VStr c).
    change (get b "readStatus") with (VStr r).
    change (get b "notes") with (VStr nt).
    by rewrite !or_else_string. }
  assert (store (BookForm_handleSubmit now (Some b) (BookForm_init (Some b)) u)
          = updateBook b (store u)) as Hstore.
  { rewrite Hinit. unfold BookForm_handleSubmit; simpl.
    apply String.eqb_neq in Ht, Ha. by rewrite Ht, Ha. }
  split; [done|]. split; [done|].
  intros Honly. rewrite Hstore, safeBooks_updateBook.
  apply map_id_on. intros x Hx.
  destruct (decide (get x "id" = get b "id")) as [Heq|Hne].
  - rewrite swap_same by done. symmetry. by apply Honly.
  - by rewrite swap_other.
Qed.

Lemma BookForm_unchanged_round_trip_witness :
  store
    (BookForm_handleSubmit 9
       (Some {[ "id" := VNum 1; "title" := VStr "Dune";
                "author" := VStr "Herbert"; "coverImage" := VStr "";
                "readStatus" := VStr "Read"; "notes" := VStr "" ]})
       (BookForm_init
          (Some {[ "id" := VNum 1; "title" := VStr "Dune";
                   "author" := VStr "Herbert"; "coverImage" := VStr "";
                   "readStatus" := VStr "Read"; "notes" := VStr "" ]}))
       (mkUI dune_store initialNav []))
    = updateBook {[ "id" := VNum 1; "title" := VStr "Dune";
                    "author" := VStr "Herbert"; "coverImage" := VStr "";
                    "readStatus" := VStr "Read"; "notes" := VStr "" ]}
        dune_store.
Proof.
  apply (proj1 (proj2 (BookForm_unchanged_round_trip 9 (VNum 1)
           "Dune" "Herbert" "" "Read" "" (mkUI dune_store initialNav [])
           ltac:(discriminate) ltac:(discriminate)))).
Defined.

(** X13.  [handleSubmit] of the character form changes neither the store
    nor the view when the name is empty or when the [bookId] prop is falsy,
    and raises one alert.  So the form of the [addCharacter] view, reached
    with no book selected, never adds a character. *)
Theorem CharacterForm_rejects (now : Z) (bookId : value)
    (existingCharacter : option object) (f : Character.form) (u : UI) :
  (truthy (Character.name f) = false ∨ truthy bookId = false →
   store (CharacterForm_handleSubmit now bookId existingCharacter f u)
     = store u ∧
   nav (CharacterForm_handleSubmit now bookId existingCharacter f u)
     = nav u ∧
   length (alerts (CharacterForm_handleSubmit now bookId existingCharacter f u))
     = S (length (alerts u))) ∧
  renderView (store u) (navigate "addCharacter" VUndefined VUndefined (nav u))
    = CharacterForm VNull None ∧
  store (CharacterForm_handleSubmit now VNull None f u) = store u.
Proof.
  split; [|split].
  - intros Hbad. unfold CharacterForm_handleSubmit.
    destruct (truthy (Character.name f)); simpl.
    + destruct Hbad as [?| ->]; [done|]. simpl.
      rewrite length_app. simpl. split; [done|]. split; [done|lia].
    + rewrite length_app. simpl. split; [done|]. split; [done|lia].
  - reflexivity.
  - unfold CharacterForm_handleSubmit.
    by destruct (truthy (Character.name f)).
Qed.

Lemma CharacterForm_rejects_witness :
  store
    (CharacterForm_handleSubmit 5 (VNum 0) None
       (Character.mkForm (VStr "Paul") (VStr "") (VStr "") (VStr "")
          (VStr "") (VStr ""))
       (mkUI dune_store initialNav []))
    = dune_store.
Proof.
  apply (proj1 (CharacterForm_rejects 5 (VNum 0) None
           (Character.mkForm (VStr "Paul") (VStr "") (VStr "") (VStr "")
              (VStr "") (VStr ""))
           (mkUI dune_store initialNav []))).
  right. reflexivity.
Defined.

(** X14.  From the page of a character of the store, whose id is not
    [undefined] and whose [bookId] is truthy, Edit Character opens the form
    on a character with that id, with the [bookId] of the page; when the
    form is submitted with a name, every record of that id in the store has
    the [bookId] the character had and the name of the form, the ids of the
    collection are those before, the books stay, and the page that follows
    shows a character with the same id and [bookId]. *)
Theorem CharacterForm_edit_flow (now : Z) (character : object)
    (f : Character.form) (u : UI) :
  character ∈ safeCharacters (store u) →
  get character "id" ≠ VUndefined →
  truthy (get character "bookId") = true →
  truthy (Character.name f) = true →
  ∃ existingCharacter saved,
    renderView (store (CharacterDetail_onEdit character u))
               (nav (CharacterDetail_onEdit character u))
      = CharacterForm (get character "bookId") (Some existingCharacter) ∧
    get existingCharacter "id" = get character "id" ∧
    (∀ c, c ∈ safeCharacters
                (store (CharacterForm_handleSubmit now
                          (get character "bookId") (Some existingCharacter) f
                          (CharacterDetail_onEdit character u))) →
          get c "id" = get character "id" →
          get c "bookId" = get character "bookId" ∧
          get c "name" = Character.name f) ∧
    ids (safeCharacters
           (store (CharacterForm_handleSubmit now
                     (get character "bookId") (Some existingCharacter) f
                     (CharacterDetail_onEdit character u))))
      = ids (safeCharacters (store u)) ∧
    books (store (CharacterForm_handleSubmit now
                    (get character "bookId") (Some existingCharacter) f
                    (CharacterDetail_onEdit character u)))
      = books (store u) ∧
    renderView
      (store (CharacterForm_handleSubmit now
                (get character "bookId") (Some existingCharacter) f
                (CharacterDetail_onEdit character u)))
      (nav (CharacterForm_handleSubmit now
              (get character "bookId") (Some existingCharacter) f
              (CharacterDetail_onEdit character u)))
      = CharacterDetail saved ∧
    get saved "id" = get character "id" ∧
    get saved "bookId" = get character "bookId".
Proof.
  intros Hchar Hdef Hbook Hname.
  destruct (find_is_Some (λ c, strict_eq (get c "id") (get character "id"))
              (safeCharacters (store u)) character Hchar (strict_eq_refl _))
    as [existing Hfind].
  destruct (find_elem_of _ _ _ Hfind) as [Hin Hid].
  apply Is_true_true, strict_eq_spec in Hid.
  exists existing. eexists.
  unfold CharacterDetail_onEdit, CharacterForm_handleSubmit, on_nav, on_store,
    navigate.
  rewrite Hname, Hbook. simpl. rewrite Hid.
  rewrite (default_param_defined _ _ Hdef),
    (default_param_defined _ _ (truthy_defined _ Hbook)).
  split.
  { unfold renderView, selectedCharacter; simpl. by rewrite Hfind. }
  split; [done|].
  rewrite safeCharacters_updateCharacter, ids_map_swap.
  split.
  { intros c Hc Hcid.
    apply elem_of_map_swap in Hc; [by subst c|done]. }
  split; [done|]. split; [done|].
  split.
  { unfold renderView, selectedCharacter; simpl.
    rewrite safeCharacters_updateCharacter.
    rewrite find_map_swap_id; [reflexivity..|]. by exists character. }
  done.
Qed.

Lemma CharacterForm_edit_flow_witness :
  ∃ saved,
    renderView
      (store (CharacterForm_handleSubmit 5 (VNum 1)
                (Some {[ "name" := VStr "Paul"; "bookId" := VNum 1;
                         "id" := VNum 2 ]})
                (Character.mkForm (VStr "Paul Atreides") (VStr "") (VStr "")
                   (VStr "") (VStr "") (VStr ""))
                (CharacterDetail_onEdit
                   {[ "name" := VStr "Paul"; "bookId" := VNum 1;
                      "id" := VNum 2 ]}
                   (mkUI dune_store initialNav []))))
      (nav (CharacterForm_handleSubmit 5 (VNum 1)
              (Some {[ "name" := VStr "Paul"; "bookId" := VNum 1;
                       "id" := VNum 2 ]})
              (Character.mkForm (VStr "Paul Atreides") (VStr "") (VStr "")
                 (VStr "") (VStr "") (VStr ""))
              (CharacterDetail_onEdit
                 {[ "name" := VStr "Paul"; "bookId" := VNum 1;
                    "id" := VNum 2 ]}
                 (mkUI dune_store initialNav []))))
      = CharacterDetail saved ∧
    get saved "bookId" = VNum 1.
Proof.
  destruct (CharacterForm_edit_flow 5
              {[ "name" := VStr "Paul"; "bookId" := VNum 1; "id" := VNum 2 ]}
              (Character.mkForm (VStr "Paul Atreides") (VStr "") (VStr "")
                 (VStr "") (VStr "") (VStr ""))
              (mkUI dune_store initialNav []))
    as (existing & saved & Hform & _ & _ & _ & _ & Hview & _ & Hbook);
    [by left|done|done|done|].
  vm_compute in Hform. injection Hform as <-.
  exists saved. split; [exact Hview|exact Hbook].
Defined.

(** X15.  From the page of a book of the store with a truthy id,
    + Add Character opens the empty form for that book; when the form is
    submitted with a name, one character is put after those that were there,
    with the id of the book as its [bookId], the clock reading as its id and
    the name of the form; the page that follows is the page of a book with
    that id, and shows the characters it showed before and then the new
    one.  When every character named a book of the store, every character
    still does. *)
Theorem CharacterForm_add_flow (now : Z) (book : object)
    (f : Character.form) (u : UI) :
  book ∈ safeBooks (store u) →
  truthy (get book "id") = true →
  truthy (Character.name f) = true →
  ∃ stored shown,
    renderView (store (BookDetail_onAddCharacter book u))
               (nav (BookDetail_onAddCharacter book u))
      = CharacterForm (get book "id") None ∧
    safeCharacters
      (store (CharacterForm_handleSubmit now (get book "id") None f
                (BookDetail_onAddCharacter book u)))
      = safeCharacters (store u) ++ [stored] ∧
    get stored "bookId" = get book "id" ∧
    get stored "id" = VNum now ∧
    get stored "name" = Character.name f ∧
    books (store (CharacterForm_handleSubmit now (get book "id") None f
                    (BookDetail_onAddCharacter book u)))
      = books (store u) ∧
    renderView
      (store (CharacterForm_handleSubmit now (get book "id") None f
                (BookDetail_onAddCharacter book u)))
      (nav (CharacterForm_handleSubmit now (get book "id") None f
              (BookDetail_onAddCharacter book u)))
      = BookDetail shown
          (filter (λ c, strict_eq (get c "bookId") (get book "id"))
             (safeCharacters (store u)) ++ [stored]) ∧
    get shown "id" = get book "id" ∧
    shown ∈ safeBooks (store u) ∧
    (integrity (store u) →
     integrity (store (CharacterForm_handleSubmit now (get book "id") None f
                         (BookDetail_onAddCharacter book u)))).
Proof.
  intros Hbook Hid Hname.
  destruct (find_is_Some (λ b, strict_eq (get b "id") (get book "id"))
              (safeBooks (store u)) book Hbook (strict_eq_refl _))
    as [shown Hfind].
  destruct (find_elem_of _ _ _ Hfind) as [Hin Hshown].
  apply Is_true_true, strict_eq_spec in Hshown.
  eexists. exists shown.
  unfold BookDetail_onAddCharacter, CharacterForm_handleSubmit, on_nav,
    on_store, navigate.
  rewrite Hname, Hid. simpl.
  rewrite (default_param_defined _ _ (truthy_defined _ Hid)).
  split; [reflexivity|].
  split; [apply safeCharacters_addCharacter|].
  do 4 (split; [reflexivity|]).
  split.
  { unfold renderView, selectedBook, charactersForSelectedBook; simpl.
    change (safeBooks (addCharacter _ _ (store u))) with (safeBooks (store u)).
    rewrite Hfind, safeCharacters_addCharacter, filter_app. do 2 f_equal.
    rewrite filter_cons_True; [done|]. apply strict_eq_spec. reflexivity. }
  split; [done|]. split; [done|].
  intros Hint c. rewrite safeCharacters_addCharacter.
  intros [Hc| ->%list_elem_of_singleton]%elem_of_app.
  - by apply Hint.
  - by exists book.
Qed.

Lemma CharacterForm_add_flow_witness :
  ∃ stored,
    safeCharacters
      (store (CharacterForm_handleSubmit 5 (VNum 1) None
                (Character.mkForm (VStr "Jessica") (VStr "") (VStr "")
                   (VStr "") (VStr "") (VStr ""))
                (BookDetail_onAddCharacter
                   {[ "title" := VStr "Dune"; "author" := VStr "Herrick";
                      "id" := VNum 1 ]}
                   (mkUI dune_store initialNav []))))
      = safeCharacters dune_store ++ [stored] ∧
    get stored "bookId" = VNum 1.
Proof.
  destruct (CharacterForm_add_flow 5
              {[ "title" := VStr "Dune"; "author" := VStr "Herrick";
                 "id" := VNum 1 ]}
              (Character.mkForm (VStr "Jessica") (VStr "") (VStr "")
                 (VStr "") (VStr "") (VStr ""))
              (mkUI dune_store initialNav []))
    as (stored & shown & _ & Happ & Hbook & _); [by left|done|done|].
  exists stored. split; [exact Happ|exact Hbook].
Defined.

(** * The delete buttons *)

(** X16.  Delete Book, when the user declines, changes nothing; when the
    user confirms, no book with the id of the book and no character with it
    as [bookId] is left, every other record stays, and the view that
    follows is the list of all books. *)
Theorem handleDeleteBook_confirmed (book : object) (u : UI) :
  handleDeleteBook false book u = u ∧
  (∀ b, b ∈ safeBooks (store (handleDeleteBook true book u)) ↔
        b ∈ safeBooks (store u) ∧ get b "id" ≠ get book "id") ∧
  (∀ c, c ∈ safeCharacters (store (handleDeleteBook true book u)) ↔
        c ∈ safeCharacters (store u) ∧ get c "bookId" ≠ get book "id") ∧
  renderView (store (handleDeleteBook true book u))
             (nav (handleDeleteBook true book u))
    = BookList VUndefined "My Books" ∧
  selectedBookId (nav (handleDeleteBook true book u)) = VNull ∧
  (integrity (store u) → integrity (store (handleDeleteBook true book u))).
Proof.
  split; [done|]. unfold handleDeleteBook, on_store, on_nav; simpl.
  rewrite safeBooks_deleteBook, safeCharacters_deleteBook.
  split; [intros b; apply elem_of_filter_ne|].
  split; [intros c; apply elem_of_filter_ne|].
  split; [reflexivity|]. split; [reflexivity|].
  intros Hint c. rewrite safeBooks_deleteBook, safeCharacters_deleteBook.
  intros [Hc Hne]%elem_of_filter_ne.
  destruct (Hint c Hc) as (b & Hb & Hid).
  exists b. split; [|done]. apply elem_of_filter_ne. split; [done|congruence].
Qed.

(** X17.  Delete Character, when the user confirms, leaves no character
    with the id of the character and keeps the books.  The view that follows
    is the page of the parent book, when the [bookId] is truthy and a book
    has it as id: it shows the characters that page showed before, without
    those of the deleted id.  With a falsy [bookId], or one that no book has,
    it is the list of all books. *)
Theorem handleDeleteCharacter_confirmed (character : object) (u : UI) :
  handleDeleteCharacter false character u = u ∧
  (∀ c, c ∈ safeCharacters (store (handleDeleteCharacter true character u)) ↔
        c ∈ safeCharacters (store u) ∧ get c "id" ≠ get character "id") ∧
  books (store (handleDeleteCharacter true character u)) = books (store u) ∧
  (truthy (get character "bookId") = true →
   (∃ b, b ∈ safeBooks (store u) ∧ get b "id" = get character "bookId") →
   ∃ parent,
     parent ∈ safeBooks (store u) ∧
     get parent "id" = get character "bookId" ∧
     renderView (store (handleDeleteCharacter true character u))
                (nav (handleDeleteCharacter true character u))
       = BookDetail parent
           (filter (λ c, strict_ne (get c "id") (get character "id"))
              (filter (λ c, strict_eq (get c "bookId")
                              (get character "bookId"))
                 (safeCharacters (store u))))) ∧
  (truthy (get character "bookId") = false ∨
   (∀ b, b ∈ safeBooks (store u) → get b "id" ≠ get character "bookId") →
   renderView (store (handleDeleteCharacter true character u))
              (nav (handleDeleteCharacter true character u))
     = BookList VUndefined "My Books").
Proof.
  split; [done|]. unfold handleDeleteCharacter.
  split; [|split; [|split]].
  - intros c. destruct (truthy (get character "bookId")); simpl;
      rewrite safeCharacters_deleteCharacter; apply elem_of_filter_ne.
  - by destruct (truthy (get character "bookId")).
  - intros Hbook (b & Hb & Hid). rewrite Hbook.
    destruct (find_is_Some
                (λ x, strict_eq (get x "id") (get character "bookId"))
                (safeBooks (store u)) b Hb) as [parent Hfind].
    { rewrite Hid. apply strict_eq_refl. }
    destruct (find_elem_of _ _ _ Hfind) as [Hin Hparent].
    apply Is_true_true, strict_eq_spec in Hparent.
    exists parent. split; [done|]. split; [done|].
    unfold on_nav, on_store, navigate; simpl.
    rewrite (default_param_defined _ _ (truthy_defined _ Hbook)).
    unfold renderView, selectedBook, charactersForSelectedBook; simpl.
    change (safeBooks (deleteCharacter _ (store u)))
      with (safeBooks (store u)).
    rewrite Hfind, safeCharacters_deleteCharacter. f_equal.
    apply filter_swap.
  - intros Hnone. destruct (truthy (get character "bookId")) eqn:Hbook;
      [|reflexivity].
    destruct Hnone as [?|Hnone]; [done|].
    unfold on_nav, on_store, navigate; simpl.
    rewrite (default_param_defined _ _ (truthy_defined _ Hbook)).
    unfold renderView; simpl.
    rewrite selectedBook_None; [done|]. simpl.
    intros b Hb. by apply Hnone.
Qed.

Lemma handleDeleteCharacter_confirmed_witness :
  ∃ parent,
    get parent "id" = VNum 1 ∧
    renderView
      (store (handleDeleteCharacter true
                {[ "name" := VStr "Paul"; "bookId" := VNum 1; "id" := VNum 2 ]}
                (mkUI dune_store initialNav [])))
      (nav (handleDeleteCharacter true
              {[ "name" := VStr "Paul"; "bookId" := VNum 1; "id" := VNum 2 ]}
              (mkUI dune_store initialNav [])))
      = BookDetail parent [].
Proof.
  destruct (proj1 (proj2 (proj2 (proj2
              (handleDeleteCharacter_confirmed
                 {[ "name" := VStr "Paul"; "bookId" := VNum 1;
                    "id" := VNum 2 ]}
                 (mkUI dune_store initialNav [])))))) as (parent & _ & Hid & Hview).
  - reflexivity.
  - eexists. split; [by left|reflexivity].
  - exists parent. split; [exact Hid|exact Hview].
Defined.

Lemma handleDeleteBook_confirmed_witness :
  integrity
    (store (handleDeleteBook true
              {[ "title" := VStr "Dune"; "author" := VStr "Herrick";
                 "id" := VNum 1 ]}
              (mkUI dune_store initialNav []))).
Proof.
  apply (proj2 (proj2 (proj2 (proj2 (proj2
           (handleDeleteBook_confirmed
              {[ "title" := VStr "Dune"; "author" := VStr "Herrick";
                 "id" := VNum 1 ]}
              (mkUI dune_store initialNav []))))))).
  intros c Hc. apply list_elem_of_singleton in Hc. subst c.
  eexists. split; [by left|reflexivity].
Defined.

(** * The book list *)

(** X18.  Whatever the filter, the list shows books of the store in the
    order of the store, each at most as often as the store has it.  With no
    filter, or a falsy one, it shows them all.  Two different filters share
    no book, so no book is both in the wishlist and among the books read. *)
Theorem filteredBooks_facts (s : Store) (f g : value) :
  sublist (filteredBooks (books s) f) (safeBooks s) ∧
  (truthy f = false → filteredBooks (books s) f = safeBooks s) ∧
  (truthy f = true → truthy g = true → f ≠ g →
   ∀ b, b ∈ filteredBooks (books s) f → b ∉ filteredBooks (books s) g) ∧
  (∀ b, b ∈ filteredBooks (books s) (VStr "To Read") →
        b ∉ filteredBooks (books s) (VStr "Read")).
Proof.
  assert (∀ h, truthy h = true → default_param h VNull = h) as Hdef.
  { intros h Hh. by destruct h. }
  assert (truthy f = true → truthy g = true → f ≠ g →
    ∀ b, b ∈ filteredBooks (books s) f → b ∉ filteredBooks (books s) g)
    as Hdisjoint.
  { intros Hf Hg Hfg b. unfold filteredBooks.
    rewrite (Hdef f Hf), (Hdef g Hg), Hf, Hg.
    rewrite !list_elem_of_filter, !strict_eq_spec.
    intros [Hbf _] [Hbg _]. congruence. }
  split; [|split; [|split]].
  - unfold filteredBooks, safeBooks.
    destruct (truthy (default_param f VNull)); [|done].
    exact (sublist_filter _ _).
  - intros Hf. unfold filteredBooks, safeBooks.
    by destruct f; simpl in *; rewrite ?Hf.
  - exact Hdisjoint.
  - clear Hdisjoint. intros b. unfold filteredBooks; simpl.
    rewrite !list_elem_of_filter, !strict_eq_spec.
    intros [Hbf _] [Hbg _]. congruence.
Qed.

Lemma filteredBooks_facts_witness :
  filteredBooks (books dune_store) (VStr "") = safeBooks dune_store.
Proof.
  apply (proj1 (proj2 (filteredBooks_facts dune_store (VStr "") VNull))).
  reflexivity.
Defined.

(** X19.  The Delete button of a card, on any list, changes nothing when
    the user declines.  When the user confirms, the view stays, and the list
    shows the books it showed before without those of the deleted id, for
    every filter; the characters of the deleted book go with it. *)
Theorem BookList_onDelete_confirmed (book : object) (f : value) (u : UI) :
  BookList_onDelete false book u = u ∧
  nav (BookList_onDelete true book u) = nav u ∧
  filteredBooks (books (store (BookList_onDelete true book u))) f
    = filter (λ b, strict_ne (get b "id") (get book "id"))
        (filteredBooks (books (store u)) f) ∧
  (∀ c, c ∈ safeCharacters (store (BookList_onDelete true book u)) →
        get c "bookId" ≠ get book "id").
Proof.
  split; [done|]. split; [done|].
  unfold BookList_onDelete, on_store. cbn [store]. split.
  - unfold filteredBooks.
    pose proof (safeBooks_deleteBook (store u) (get book "id")) as Hdel.
    unfold safeBooks in Hdel. rewrite Hdel.
    destruct (truthy (default_param f VNull)); [|done].
    apply filter_swap.
  - intros c. rewrite safeCharacters_deleteBook.
    by intros [_ ?]%elem_of_filter_ne.
Qed.

(** X20.  The parent book that the page and the form of a character look
    up is the book the app selects for that id: there is none exactly when
    no book of the store has the id.  When every character names a book of
    the store, every character has a parent book, with its [bookId] as id. *)
Theorem parentBook_found (s : Store) (bookId : value) :
  (∀ n, selectedBookId n = bookId → parentBook s bookId = selectedBook s n) ∧
  (parentBook s bookId = None ↔
   ∀ b, b ∈ safeBooks s → get b "id" ≠ bookId) ∧
  (integrity s →
   ∀ c, c ∈ safeCharacters s →
        ∃ b, parentBook s (get c "bookId") = Some b ∧
             b ∈ safeBooks s ∧ get b "id" = get c "bookId").
Proof.
  assert (parentBook s bookId
          = find (λ b, strict_eq (get b "id") bookId) (safeBooks s)) as Hparent.
  { unfold parentBook, safeBooks. by destruct (books s). }
  split; [|split].
  - intros n <-. by rewrite Hparent.
  - rewrite Hparent, find_None. split; intros Hnone b Hb.
    + specialize (Hnone b Hb). intros Heq.
      rewrite Heq, strict_eq_refl in Hnone. done.
    + apply strict_eq_false. by apply Hnone.
  - intros Hint c Hc. destruct (Hint c Hc) as (b0 & Hb0 & Hid0).
    assert (parentBook s (get c "bookId")
            = find (λ b, strict_eq (get b "id") (get c "bookId"))
                (safeBooks s)) as ->.
    { unfold parentBook, safeBooks. by destruct (books s). }
    destruct (find_is_Some
                (λ b, strict_eq (get b "id") (get c "bookId"))
                (safeBooks s) b0 Hb0) as [b Hfind].
    { rewrite Hid0. apply strict_eq_refl. }
    destruct (find_elem_of _ _ _ Hfind) as [Hb Hid].
    apply Is_true_true, strict_eq_spec in Hid. by exists b.
Qed.

Lemma parentBook_found_witness :
  ∃ b, parentBook dune_store (VNum 1) = Some b ∧ get b "id" = VNum 1.
Proof.
  destruct (proj2 (proj2 (parentBook_found dune_store (VNum 1))))
    with (c := ({[ "name" := VStr "Paul"; "bookId" := VNum 1;
                   "id" := VNum 2 ]} : object))
    as (b & Hfind & _ & Hid).
  - intros c Hc. apply list_elem_of_singleton in Hc. subst c.
    eexists. split; [by left|reflexivity].
  - vm_compute. by left.
  - exists b. split; [exact Hfind|exact Hid].
Defined.

(** X21.  The Delete button of a character card, on the page of a book:
    when the user confirms, the page stays, the book it shows is the
    same, and it shows the characters it showed before without those of the
    deleted id; when the user declines, nothing changes. *)
Theorem CharacterCard_handleDelete_confirmed (character : object) (u : UI) :
  CharacterCard_handleDelete false character u = u ∧
  nav (CharacterCard_handleDelete true character u) = nav u ∧
  selectedBook (store (CharacterCard_handleDelete true character u)) (nav u)
    = selectedBook (store u) (nav u) ∧
  charactersForSelectedBook
    (store (CharacterCard_handleDelete true character u)) (nav u)
    = filter (λ c, strict_ne (get c "id") (get character "id"))
        (charactersForSelectedBook (store u) (nav u)) ∧
  (∀ c, c ∈ safeCharacters
              (store (CharacterCard_handleDelete true character u)) →
        get c "id" ≠ get character "id").
Proof.
  split; [done|]. split; [done|]. split; [done|].
  unfold CharacterCard_handleDelete, on_store. cbn [store].
  unfold charactersForSelectedBook.
  rewrite safeCharacters_deleteCharacter. split.
  - apply filter_swap.
  - intros c. by intros [_ ?]%elem_of_filter_ne.
Qed.

(** * Unique ids *)

Section UniqueIds.

Lemma ids_filter_sublist (P : object → Prop) `{!∀ x, Decision (P x)}
    (l : list object) :
  sublist (ids (filter P l)) (ids l).
Proof. unfold ids. apply fmap_sublist. exact (sublist_filter _ _). Qed.

Lemma ids_app_fresh (now : Z) (r : object) (l : list object) :
  NoDup (ids l) →
  (∀ x, x ∈ l → get x "id" ≠ VNum now) →
  NoDup (ids (l ++ [ <["id" := VNum now]> r ])).
Proof.
  intros Hnodup Hfresh. unfold ids in *. rewrite fmap_app. simpl.
  rewrite get_insert_eq. apply NoDup_app. split; [done|]. split.
  - intros v (x & -> & Hx)%list_elem_of_fmap Heq%list_elem_of_singleton.
    by apply (Hfresh x).
  - apply NoDup_singleton.
Qed.

End UniqueIds.

(** X22.  When the books have pairwise different ids, they still have
    after [updateBook], after [deleteBook], and after [addBook] at a clock
    reading that is the id of no book; and so for the characters with
    [updateCharacter], [deleteCharacter], [deleteBook] and [addCharacter]. *)
Theorem unique_ids_preserved (now : Z) (r : object) (id : value) (s : Store) :
  (NoDup (ids (safeBooks s)) →
   NoDup (ids (safeBooks (updateBook r s))) ∧
   NoDup (ids (safeBooks (deleteBook id s))) ∧
   ((∀ b, b ∈ safeBooks s → get b "id" ≠ VNum now) →
    NoDup (ids (safeBooks (addBook now r s))))) ∧
  (NoDup (ids (safeCharacters s)) →
   NoDup (ids (safeCharacters (updateCharacter r s))) ∧
   NoDup (ids (safeCharacters (deleteCharacter id s))) ∧
   NoDup (ids (safeCharacters (deleteBook id s))) ∧
   ((∀ c, c ∈ safeCharacters s → get c "id" ≠ VNum now) →
    NoDup (ids (safeCharacters (addCharacter now r s))))).
Proof.
  split; intros Hnodup.
  - rewrite safeBooks_updateBook, safeBooks_deleteBook, safeBooks_addBook,
      ids_map_swap.
    split; [done|]. split.
    + eapply sublist_NoDup; [exact Hnodup|apply ids_filter_sublist].
    + by apply ids_app_fresh.
  - rewrite safeCharacters_updateCharacter, safeCharacters_deleteCharacter,
      safeCharacters_deleteBook, safeCharacters_addCharacter, ids_map_swap.
    split; [done|]. split; [|split].
    + eapply sublist_NoDup; [exact Hnodup|apply ids_filter_sublist].
    + eapply sublist_NoDup; [exact Hnodup|apply ids_filter_sublist].
    + by apply ids_app_fresh.
Qed.

Lemma unique_ids_preserved_witness :
  NoDup (ids (safeBooks
                (addBook 3 {[ "title" := VStr "A"; "author" := VStr "B" ]}
                   dune_store))).
Proof.
  apply (proj1 (unique_ids_preserved 3
                  {[ "title" := VStr "A"; "author" := VStr "B" ]}
                  VNull dune_store)).
  - vm_compute. apply NoDup_singleton.
  - single_record.
Defined.
